(** * Cairo smart-test framework and reference arithmetic models

    A shallow embedding of
    - [cairo_smart_test_framework.py]: [CairoTest.run], [SmartTest.__init__]
      and [SmartTest.run];
    - the success predicates of the fixed-width signed tests
      ([test_int16.py], [test_int6.py]): [eq_with_overflow], [test__add],
      [test__sub], [test__div_rem];
    - the sign-magnitude conversions and the [test__div] and
      [test__utility_sub] predicates of [test_biguint.py] and [test_bigint.py].

    Python calls that may raise are modelled by a [result]; the accumulator
    list, which Python mutates in place and shares between [SmartTest] and
    [CairoTest.run], is threaded through explicitly. *)

From Stdlib Require Import ZArith Zquot List String Bool Lia.
Import ListNotations.

(* ================================================================== *)
(** * Python exceptions and call results *)
(* ================================================================== *)

(** The exceptions that occur in the sources: [ValueError] is raised by
    [SmartTest.__init__] and by the [cond_neg] predicates, [AssertionError] by
    a failing [assert], [NotImplementedError] by the abstract predicates,
    [ZeroDivisionError] by [divmod]; [RuntimeError] stands for whatever the
    Cairo runner or the compiler raise. *)
Inductive exn : Type :=
| ValueError (msg : string)
| AssertionError
| NotImplementedError
| ZeroDivisionError
| RuntimeError (what : string).

(** A Python call either returns a value or raises. *)
Inductive result (A : Type) : Type :=
| Returned (a : A)
| Raised (e : exn).

Arguments Returned {A} a.
Arguments Raised {A} e.

Definition returns_normally {A : Type} (r : result A) : bool :=
  match r with Returned _ => true | Raised _ => false end.

(** [assert c]: returns when [c] holds and raises [AssertionError] otherwise. *)
Definition assert (c : bool) : result unit :=
  if c then Returned tt else Raised AssertionError.

(* ================================================================== *)
(** * The test framework ([cairo_smart_test_framework.py]) *)
(* ================================================================== *)

(** [AbstractCairoTestClass]: the data of [AbstractCairoFunctionClass]
    together with the two predicates.  [success_function] receives the
    arguments followed by the results ([*argument_values, *results]). *)
Record AbstractCairoTestClass : Type := {
  func_name : string;
  argument_names : list string;
  number_of_return_values : Z;
  builtins : list string;
  success_function : list Z -> result unit;
  failure_function : list Z -> result unit
}.

(** Entries appended to the accumulator: the failure branches append a pair
    [(label, argument_values)], the success branches a triple
    [(label, argument_values, results)]. *)
Inductive entry : Type :=
| Entry2 (label : string) (argument_values : list Z)
| Entry3 (label : string) (argument_values : list Z) (results : list Z).

Definition ExpectedFailure (args : list Z) : entry :=
  Entry2 "Failure (as expected)" args.
Definition UnexpectedFailure (args : list Z) : entry :=
  Entry2 "!!!! Failure (NOT expected) !!!!" args.
Definition ExpectedSuccess (args results : list Z) : entry :=
  Entry3 "Success (as expected)" args results.
Definition UnexpectedSuccess (args results : list Z) : entry :=
  Entry3 "!!!! Success (NOT expected) !!!!" args results.

(** [results_accumulator]: [None] or a list.  The statement
    [if results_accumulator != None: results_accumulator.append(x)]. *)
Definition accumulate (results_accumulator : option (list entry)) (x : entry)
  : option (list entry) :=
  match results_accumulator with
  | None => None
  | Some l => Some (l ++ [x])
  end.

(** [x != None]. *)
Definition provided {A : Type} (x : option A) : bool :=
  match x with Some _ => true | None => false end.

Section Framework.

(** The external collaborators: compiled programs, the Cairo function
    runner ([CairoFunctionRunner(program).run] followed by
    [get_return_values]) and the compiler behind
    [compile_cairo_code_from_]. *)
Variable Program : Type.
Variable cairo_function_runner :
  Program -> string -> list (string * Z) -> list string -> Z -> result (list Z).
Variable compile_cairo_code_from_ : string -> result Program.

Record CairoTest : Type := { program : Program }.

(** [CairoTest.invoke_function]: binds the values to the argument names,
    runs the function and collects its return values. *)
Definition invoke_function (self : CairoTest)
    (func_class : AbstractCairoTestClass) (argument_values : list Z)
  : result (list Z) :=
  cairo_function_runner (program self)
    (func_name func_class)
    (combine (argument_names func_class) argument_values)
    (builtins func_class)
    (number_of_return_values func_class).

(** [CairoTest.run].  The result pairs the accumulator after the call with
    the way the call ends.  A bare [raise] re-raises the exception being
    handled by the innermost enclosing [except]: in the failure branch that
    is the exception of [failure_function]; in the success branch the
    [raise] sits inside [if results_accumulator != None]. *)
Definition CairoTest_run (self : CairoTest)
    (test_class : AbstractCairoTestClass) (argument_values : list Z)
    (results_accumulator : option (list entry))
  : option (list entry) * result unit :=
  match invoke_function self test_class argument_values with
  | Raised _ =>
      match failure_function test_class argument_values with
      | Returned _ =>
          (accumulate results_accumulator (ExpectedFailure argument_values),
           Returned tt)
      | Raised e =>
          (accumulate results_accumulator (UnexpectedFailure argument_values),
           Raised e)
      end
  | Returned results =>
      match success_function test_class (argument_values ++ results) with
      | Returned _ =>
          (accumulate results_accumulator
             (ExpectedSuccess argument_values results),
           Returned tt)
      | Raised e =>
          match results_accumulator with
          | Some l =>
              (Some (l ++ [UnexpectedSuccess argument_values results]),
               Raised e)
          | None => (None, Returned tt)
          end
      end
  end.

(** The attributes of a [SmartTest] object. *)
Record SmartTest : Type := {
  test_object : CairoTest;
  run_tests : bool;
  LastTest : option AbstractCairoTestClass;
  results_accumulator : option (list entry)
}.

(** [SmartTest.__init__]: [Raised] means that the constructor raised and no
    attribute was set. *)
Definition SmartTest__init__ (test_object_arg : option CairoTest)
    (filename : option string) : result SmartTest :=
  match filename, test_object_arg with
  | None, Some t =>
      Returned {| test_object := t; run_tests := true;
                  LastTest := None; results_accumulator := None |}
  | Some f, None =>
      match compile_cairo_code_from_ f with
      | Returned p =>
          Returned {| test_object := {| program := p |}; run_tests := true;
                      LastTest := None; results_accumulator := None |}
      | Raised e => Raised e
      end
  | _, _ =>
      Raised (ValueError
        "Precisely one of filename and test_object should be provided here please.")
  end.

(** [SmartTest.run].  The accumulator is the very list handed to
    [CairoTest.run], so its appends are visible in the harness also when
    the call raises; the assignment to [LastTest] comes after the call. *)
Definition SmartTest_run (self : SmartTest)
    (SomeCairoTestClass : AbstractCairoTestClass) (some_arguments : list Z)
  : SmartTest * result unit :=
  if run_tests self then
    match CairoTest_run (test_object self) SomeCairoTestClass some_arguments
            (results_accumulator self) with
    | (acc, Raised e) =>
        ({| test_object := test_object self; run_tests := run_tests self;
            LastTest := LastTest self; results_accumulator := acc |},
         Raised e)
    | (acc, Returned _) =>
        ({| test_object := test_object self; run_tests := run_tests self;
            LastTest := Some SomeCairoTestClass;
            results_accumulator := acc |},
         Returned tt)
    end
  else
    ({| test_object := test_object self; run_tests := run_tests self;
        LastTest := Some SomeCairoTestClass;
        results_accumulator := results_accumulator self |},
     Returned tt).

End Framework.

(** Stub collaborators for running the definitions on concrete inputs: a
    program is represented by what the runner does with it. *)
Definition stub_runner (p : result (list Z)) (_ : string)
    (_ : list (string * Z)) (_ : list string) (_ : Z) : result (list Z) := p.

Definition stub_compile (f : string) : result (result (list Z)) :=
  if String.eqb f "simple_cairo_function.cairo"
  then Returned (Returned [1%Z])
  else Raised (RuntimeError "file not found").

(** A test class with chosen predicates. *)
Definition stub_test (on_success on_failure : result unit)
  : AbstractCairoTestClass :=
  {| func_name := "is_double_uint5";
     argument_names := ["a"%string; "b"%string];
     number_of_return_values := 1;
     builtins := ["range_check"%string];
     success_function := fun _ => on_success;
     failure_function := fun _ => on_failure |}.

(** A compiled program whose function returns [[1]], one whose run fails, a
    test class whose success predicate rejects and whose failure predicate
    accepts, and one whose failure predicate rejects. *)
Definition returning_program : CairoTest (result (list Z)) :=
  {| program := Returned [1%Z] |}.

Definition failing_program : CairoTest (result (list Z)) :=
  {| program := Raised (RuntimeError "cairo run failed") |}.

Definition rejects_success : AbstractCairoTestClass :=
  stub_test (Raised AssertionError) (Returned tt).

Definition rejects_failure : AbstractCairoTestClass :=
  stub_test (Returned tt) (Raised AssertionError).

(** A harness as [SmartTest(test_object=...)] builds it, and the same with
    [run_tests] set to [False]. *)
Definition fresh_harness : SmartTest (result (list Z)) :=
  {| test_object := failing_program; run_tests := true;
     LastTest := None; results_accumulator := None |}.

Definition idle_harness : SmartTest (result (list Z)) :=
  {| test_object := failing_program; run_tests := false;
     LastTest := None; results_accumulator := None |}.

(* ================================================================== *)
(** * Field elements *)
(* ================================================================== *)

Local Open Scope Z_scope.

(** [DEFAULT_PRIME] of [starkware.cairo.lang.cairo_constants], as the
    comments of [test_biguint.py] give it. *)
Definition DEFAULT_PRIME : Z := 2 ^ 251 + 17 * 2 ^ 192 + 1.

(** "The 128 in RC_BOUND below is fixed by the Cairo system". *)
Definition RC_BOUND : Z := 2 ^ 128.

(** Sequencing of statements that may raise. *)
Definition bind {A B : Type} (r : result A) (k : A -> result B) : result B :=
  match r with
  | Returned a => k a
  | Raised e => Raised e
  end.

Notation "r ;; k" := (bind r (fun _ => k))
  (at level 61, right associativity).

(* ================================================================== *)
(** * Signed fixed-width model ([test_int16.py], [test_int6.py]) *)
(* ================================================================== *)

Module FixedWidth.
Section Width.

(** "File is parametric over values for BIT_LENGTH up to 128". *)
Variable BIT_LENGTH : Z.

Definition WORD_SIZE : Z := 2 ^ BIT_LENGTH.
Definition SHIFT : Z := 2 ^ (BIT_LENGTH - 1).
Definition MIN_VAL : Z := - SHIFT.
Definition MAX_VAL : Z := SHIFT - 1.

(** "Rather crude function that treats a >= RC_BOUND as representing a
    negative integer." *)
Definition felt_to_num (a : Z) : Z :=
  if a >=? RC_BOUND then a - DEFAULT_PRIME else a.

Definition mod_default_prime (a : Z) : Z := a mod DEFAULT_PRIME.

Definition assert_felt_eq_num (a b : Z) : result unit :=
  assert ((0 <=? a) && (a <? DEFAULT_PRIME)) ;;
  assert (mod_default_prime (a - b) =? 0).

Definition eq_with_overflow (expected_num actual_felt_returned overflow_bit : Z)
  : result unit :=
  if expected_num >? MAX_VAL then
    assert_felt_eq_num actual_felt_returned (expected_num - WORD_SIZE) ;;
    assert_felt_eq_num overflow_bit 1
  else if expected_num <? MIN_VAL then
    assert_felt_eq_num actual_felt_returned (expected_num + WORD_SIZE) ;;
    assert_felt_eq_num overflow_bit (-1)
  else
    assert_felt_eq_num actual_felt_returned expected_num ;;
    assert_felt_eq_num overflow_bit 0.

(** [success_function] of [test__add] and of [test__sub]. *)
Definition test__add_success_function (a b res overflow : Z) : result unit :=
  eq_with_overflow (a + b) res overflow.

Definition test__sub_success_function (a b res overflow : Z) : result unit :=
  eq_with_overflow (a - b) res overflow.

(** [success_function] of [test__div_rem]. *)
Definition test__div_rem_success_function (a b quotient remainder : Z)
  : result unit :=
  let quotient_as_int := felt_to_num quotient in
  let remainder_as_int := felt_to_num remainder in
  if (b =? 0) || (a =? 0) then
    assert ((quotient_as_int =? 0) && (remainder_as_int =? 0))
  else if (b =? -1) && negb (a =? MIN_VAL) then
    assert ((quotient_as_int =? - a) && (remainder_as_int =? 0))
  else if (b =? -1) && (a =? MIN_VAL) then
    assert ((quotient_as_int =? a) && (remainder_as_int =? 0))
  else
    let sign_of_a_in := if 0 <=? a then 1 else -1 in
    let sign_of_b_in := if 0 <=? b then 1 else -1 in
    assert ((0 <=? sign_of_a_in * remainder_as_int)
            && (sign_of_a_in * remainder_as_int <? sign_of_b_in * b)) ;;
    assert (a =? b * quotient_as_int + remainder_as_int).

(** The encoding of an integer as a field element, as the Cairo machine
    takes its inputs ("by taking them modulo DEFAULT_PRIME"). *)
Definition num_to_felt (a : Z) : Z := a mod DEFAULT_PRIME.

(** The expected result of [add] and [sub] in the words of the
    specification, from the exact sum or difference [v]. *)
Definition expected_with_overflow (v : Z) : Z * Z :=
  if v >? MAX_VAL then (v - WORD_SIZE, 1)
  else if v <? MIN_VAL then (v + WORD_SIZE, -1)
  else (v, 0).

(** The expected quotient and remainder in the words of the specification;
    [sign] is the sign the predicate computes. *)
Definition sign (a : Z) : Z := if 0 <=? a then 1 else -1.

Definition div_rem_expected (a b q r : Z) : Prop :=
  if (b =? 0) || (a =? 0) then q = 0 /\ r = 0
  else if b =? -1 then
    if a =? MIN_VAL then q = a /\ r = 0 else q = - a /\ r = 0
  else a = b * q + r /\ 0 <= sign a * r < sign b * b.

Definition num_check (a : Z) : Prop := MIN_VAL <= a <= MAX_VAL.

(** The pair that satisfies [div_rem_expected]: the corner cases, and
    otherwise the quotient rounded towards zero with its remainder. *)
Definition expected_div_rem (a b : Z) : Z * Z :=
  if (b =? 0) || (a =? 0) then (0, 0)
  else if b =? -1 then (if a =? MIN_VAL then a else - a, 0)
  else (Z.quot a b, Z.rem a b).

(** ** The other predicates of [test_int16.py] and [test_int6.py] *)

(** [ALL_ONES = WORD_SIZE - 1]. *)
Definition ALL_ONES : Z := WORD_SIZE - 1.

(** [success_function] and [failure_function] of [test__num_check]. *)
Definition test__num_check_success_function (a : Z) : result unit :=
  assert ((MIN_VAL <=? a) && (a <=? MAX_VAL)).

Definition test__num_check_failure_function (a : Z) : result unit :=
  assert ((a <? MIN_VAL) || (MAX_VAL <? a)).

(** [success_function] and [failure_function] of [test__felt_abs]. *)
Definition test__felt_abs_success_function (a a_abs a_sign : Z) : result unit :=
  assert (a_abs * felt_to_num a_sign =? a).

Definition test__felt_abs_failure_function (a : Z) : result unit :=
  assert false.

(** [success_function] of [test__id], [test__not] and [test__neg]. *)
Definition test__id_success_function (a res : Z) : result unit :=
  assert_felt_eq_num res a.

Definition test__not_success_function (a res : Z) : result unit :=
  assert_felt_eq_num res (- (a + 1)).

Definition test__neg_success_function (a res : Z) : result unit :=
  if negb (a =? MIN_VAL) then assert_felt_eq_num res (- a)
  else assert_felt_eq_num res a.

(** [success_function] of [test__pow2]. *)
Definition test__pow2_success_function (a res : Z) : result unit :=
  if (0 <=? a) && (a <=? BIT_LENGTH - 2) then assert (res =? 2 ^ a)
  else assert (res =? 0).

(** [success_function] of [test__mul]. *)
Definition test__mul_success_function (a b res overflow : Z) : result unit :=
  assert ((- SHIFT <=? felt_to_num overflow) && (felt_to_num overflow <? SHIFT)) ;;
  assert ((- SHIFT <=? felt_to_num res) && (felt_to_num res <? SHIFT)) ;;
  assert (mod_default_prime (res + overflow * (2 * SHIFT) - a * b) =? 0).

(** [success_function] of [test__eq], [test__lt] and [test__le] in
    [test_int16.py]. *)
Definition test__eq_success_function (a b res : Z) : result unit :=
  assert ((res =? 1) && (a =? b) || (res =? 0) && negb (a =? b)).

Definition test__lt_success_function (a b res : Z) : result unit :=
  assert ((res =? 1) && (a <? b) || (res =? 0) && (a >=? b)).

Definition test__le_success_function (a b res : Z) : result unit :=
  assert ((res =? 1) && (a <=? b) || (res =? 0) && (a >? b)).

(** The same three predicates as [test_int6.py] writes them. *)
Definition test_int6__eq_success_function (a_in b_in res : Z) : result unit :=
  assert ((res =? 0) || (res =? 1)) ;;
  assert (Bool.eqb (a_in =? b_in) (res =? 1)).

Definition test_int6__lt_success_function (a_in b_in res : Z) : result unit :=
  assert (Bool.eqb (res =? 1) (a_in <? b_in)) ;;
  assert (Bool.eqb (res =? 0) (a_in >=? b_in)).

Definition test_int6__le_success_function (a_in b_in res : Z) : result unit :=
  assert (Bool.eqb (res =? 1) (a_in <=? b_in)) ;;
  assert (Bool.eqb (res =? 0) (a_in >? b_in)).

(** [success_function] of [test__xor], [test__and] and [test__or]; Python's
    bit operations on integers are those of two's complement with infinitely
    many sign bits, as [Z.lxor], [Z.land] and [Z.lor] are. *)
Definition test__xor_success_function (a b res : Z) : result unit :=
  assert_felt_eq_num res (Z.lxor a b).

Definition test__and_success_function (a b res : Z) : result unit :=
  assert_felt_eq_num res (Z.land a b).

Definition test__or_success_function (a b res : Z) : result unit :=
  assert_felt_eq_num res (Z.lor a b).

(** [success_function] and [failure_function] of [test__shl]. *)
Definition test__shl_success_function (a b res : Z) : result unit :=
  assert (b >=? 0) ;;
  if b >=? BIT_LENGTH - 1 then assert_felt_eq_num res 0
  else
    let unsigned_result := Z.land (Z.shiftl a b) ALL_ONES in
    if unsigned_result >? MAX_VAL
    then assert_felt_eq_num res (unsigned_result - WORD_SIZE)
    else assert_felt_eq_num res unsigned_result.

Definition test__shl_failure_function (a b : Z) : result unit :=
  assert ((b <? 0) || (b >=? RC_BOUND)).

(** [success_function] of [test__shr]. *)
Definition test__shr_success_function (a b res : Z) : result unit :=
  assert (b >=? 0) ;;
  if (b >=? BIT_LENGTH - 1) && (a >=? 0) then assert_felt_eq_num res 0
  else if (b >=? BIT_LENGTH - 1) && (a <? 0) then assert_felt_eq_num res (-1)
  else
    let expected_result := Z.shiftr a b in
    assert_felt_eq_num res expected_result.

(** [success_function] and [failure_function] of [test__cond_neg]. *)
Definition test__cond_neg_success_function (a b res : Z) : result unit :=
  if (b =? 1) && negb (a =? MIN_VAL) then assert_felt_eq_num res (- a)
  else if (b =? 1) && (a =? MIN_VAL) then assert_felt_eq_num res a
  else if b =? 0 then assert_felt_eq_num res a
  else Raised (ValueError
    "uint_cond_neg_test: invalid input.  Argument `b` should be 0 or 1 but you gave me ").

Definition test__cond_neg_failure_function (a b : Z) : result unit :=
  assert false.

(** The values the predicates above compare the result with. *)
Definition expected_neg (a : Z) : Z := if a =? MIN_VAL then a else - a.

Definition expected_shl (a b : Z) : Z :=
  if b >=? BIT_LENGTH - 1 then 0
  else
    let unsigned_result := Z.land (Z.shiftl a b) ALL_ONES in
    if unsigned_result >? MAX_VAL then unsigned_result - WORD_SIZE
    else unsigned_result.

End Width.
End FixedWidth.

(* ================================================================== *)
(** * Unbounded-precision model ([test_biguint.py], [test_bigint.py]) *)
(* ================================================================== *)

Module BigUint.

(** The Cairo struct wrapper around a [num]: [num_to_biguint = BigUint(a)],
    [biguint_to_num = a.ptr]. *)
Record BigUint : Type := { ptr : list Z }.

Definition num_to_biguint (a : list Z) : BigUint := {| ptr := a |}.
Definition biguint_to_num (a : BigUint) : list Z := ptr a.

(** "End-Of-Number marker.  Currently set to -1". *)
Definition EON : Z := -1.

(** Modelled from the spec: [add_eon] of the absent [biguint_tools.py]; a
    digit sequence is "terminated by a sentinel". *)
Definition add_eon (l : list Z) : list Z := l ++ [EON].

(** Modelled from the spec: [strip_eon] of the absent [biguint_tools.py]; the
    digits are what precedes the sentinel. *)
Fixpoint strip_eon (a : list Z) : list Z :=
  match a with
  | [] => []
  | d :: t => if d =? EON then [] else d :: strip_eon t
  end.

(** Modelled from the spec: the canonicalization step of the absent
    [int_to_num], "dropping any trailing (most-significant) zero digits" of a
    little-endian digit sequence. *)
Fixpoint strip_trailing_zeros (l : list Z) : list Z :=
  match l with
  | [] => []
  | d :: t =>
      match strip_trailing_zeros t with
      | [] => if d =? 0 then [] else [d]
      | t' => d :: t'
      end
  end.

(** The filter of the generator [arbitrary_num]:
    [l[-1] != 0 if len(l) > 0 else True]. *)
Definition last_digit_nonzero (l : list Z) : bool :=
  match l with
  | [] => true
  | _ :: _ => negb (last l 0 =? 0)
  end.

(** [int_to_signed_abs] ([int_to_sign_and_abs] in [test_bigint.py]). *)
Definition int_to_signed_abs (a : Z) : Z * Z :=
  if a >=? 0 then (1, a) else (-1, - a).

(** Python's [divmod] on integers: floor division, and the remainder has the
    sign of the divisor. *)
Definition divmod (a b : Z) : result (Z * Z) :=
  if b =? 0 then Raised ZeroDivisionError else Returned (a / b, a mod b).

Definition pair_eqb (x y : Z * Z) : bool :=
  (fst x =? fst y) && (snd x =? snd y).

Section Radix.

(** "File is parametric over BIT_LENGTH, which may range from 4 to 125." *)
Variable BIT_LENGTH : Z.

(** [SHIFT  # 2 ** BIT_LENGTH]: the radix. *)
Definition SHIFT : Z := 2 ^ BIT_LENGTH.

(** The generator [arbitrary_uint]: a digit lies in [0, SHIFT - 1]. *)
Definition arbitrary_uint (d : Z) : Prop := 0 <= d <= SHIFT - 1.

(** The generator [arbitrary_num]: the canonical magnitudes. *)
Definition arbitrary_num (a : list Z) : Prop :=
  exists l, Forall arbitrary_uint l /\ last_digit_nonzero l = true
            /\ a = add_eon l.

(** The generators [arbitrary_sign] and [arbitrary_bigint]. *)
Definition arbitrary_sign (s : Z) : Prop := s = -1 \/ s = 1.

Definition arbitrary_bigint (x : Z * list Z) : Prop :=
  arbitrary_sign (fst x) /\ arbitrary_num (snd x).

(** Modelled from the spec: the sum of [digit_i * SHIFT ^ i] that the absent
    [num_to_int] computes, in Horner form. *)
Fixpoint digits_to_int (l : list Z) : Z :=
  match l with
  | [] => 0
  | d :: t => d + SHIFT * digits_to_int t
  end.

(** Modelled from the spec: [num_to_int] of the absent [biguint_tools.py],
    which "reassembles via the sum of digit_i * R^i". *)
Definition num_to_int (a : list Z) : Z := digits_to_int (strip_eon a).

(** Modelled from the spec: the decomposition step of the absent
    [int_to_num], the [k] least-significant base-[SHIFT] digits of [n],
    least-significant first. *)
Fixpoint decompose (k : nat) (n : Z) : list Z :=
  match k with
  | O => []
  | S k' => (n mod SHIFT) :: decompose k' (n / SHIFT)
  end.

(** Modelled from the spec: [int_to_num] of the absent [biguint_tools.py],
    which "decomposes n into base-R digits, least-significant first,
    dropping any trailing (most-significant) zero digits".  A number has no
    more digits than bits, hence the number of positions decomposed. *)
Definition int_to_num (n : Z) : list Z :=
  add_eon (strip_trailing_zeros (decompose (S (Z.to_nat (Z.log2 n))) n)).

(** [int_to_bigint] and [bigint_to_int]. *)
Definition int_to_bigint (a : Z) : Z * list Z :=
  let (a_sign, a_abs) := int_to_signed_abs a in
  (a_sign, int_to_num a_abs).

Definition bigint_to_int (a : Z * list Z) : Z :=
  let (a_sign, a_abs) := a in
  a_sign * num_to_int a_abs.

Definition int_to_biguint (n : Z) : BigUint := num_to_biguint (int_to_num n).
Definition biguint_to_int (a : BigUint) : Z := num_to_int (biguint_to_num a).

(** [success_function] and [failure_function] of [test__div]. *)
Definition test__div_success_function
    (a_in b_in quotient_out remainder_out : BigUint) : result unit :=
  let a := biguint_to_int a_in in
  let b := biguint_to_int b_in in
  let quotient := biguint_to_int quotient_out in
  let remainder := biguint_to_int remainder_out in
  if (a =? 0) || (b =? 0) then
    assert (pair_eqb (quotient, remainder) (0, 0))
  else
    bind (divmod a b) (fun qr => assert (pair_eqb (quotient, remainder) qr)).

Definition test__div_failure_function (a b : BigUint) : result unit :=
  assert false.

(** Modelled from the spec: one column of the borrow-propagating subtraction
    of the absent [num_sub], giving the digit and the borrow handed on. *)
Definition sub_digit (x y borrow : Z) : Z * Z :=
  let d := x - y - borrow in
  if d <? 0 then (d + SHIFT, 1) else (d, 0).

(** Modelled from the spec: the columns that the absent [num_sub] works
    through, the shorter digit sequence continued by zeros. *)
Fixpoint columns (a b : list Z) : list (Z * Z) :=
  match a, b with
  | [], _ => map (fun y => (0, y)) b
  | _, [] => map (fun x => (x, 0)) a
  | x :: a', y :: b' => (x, y) :: columns a' b'
  end.

(** Both digits of a column are in range. *)
Definition in_columns (c : Z * Z) : Prop :=
  arbitrary_uint (fst c) /\ arbitrary_uint (snd c).

(** Modelled from the spec: the column loop of the absent [num_sub],
    propagating the borrow from the least-significant column upwards. *)
Fixpoint sub_with_borrow (cols : list (Z * Z)) (borrow : Z) : list Z * Z :=
  match cols with
  | [] => ([], borrow)
  | (x, y) :: t =>
      let (d, borrow') := sub_digit x y borrow in
      let (r, last_borrow) := sub_with_borrow t borrow' in
      (d :: r, last_borrow)
  end.

(** Modelled from the spec: [num_sub] of the absent [biguint_tools.py],
    "schoolbook borrow-propagating subtraction; since magnitudes cannot be
    negative, the result is a (sign, magnitude) pair where sign indicates
    which operand was numerically larger".  A borrow out of the last column
    tells that the second operand is the larger one; the operands are then
    subtracted the other way round. *)
Definition num_sub (a b : list Z) : Z * list Z :=
  let da := strip_eon a in
  let db := strip_eon b in
  let (r, last_borrow) := sub_with_borrow (columns da db) 0 in
  if last_borrow =? 0 then (1, add_eon (strip_trailing_zeros r))
  else (-1, add_eon (strip_trailing_zeros
                       (fst (sub_with_borrow (columns db da) 0)))).

(** The body of [test__utility_sub]. *)
Definition test__utility_sub (a_biguint_pair : BigUint * BigUint)
  : result unit :=
  let (a, b) := a_biguint_pair in
  let a_num := biguint_to_num a in
  let b_num := biguint_to_num b in
  let (sign, res_num) := num_sub a_num b_num in
  let a_int := num_to_int a_num in
  let b_int := num_to_int b_num in
  let res_int := num_to_int res_num in
  if a_int >=? b_int then
    assert (pair_eqb (sign, res_int) (1, a_int - b_int))
  else
    assert (pair_eqb (sign, res_int) (-1, b_int - a_int)).

(** ** The other predicates of [test_biguint.py] and [test_bigint.py] *)

(** Python's [==] on digit sequences and on sign-magnitude pairs. *)
Definition num_eqb (a b : list Z) : bool :=
  if list_eq_dec Z.eq_dec a b then true else false.

Definition bigint_eqb (a b : Z * list Z) : bool :=
  (fst a =? fst b) && num_eqb (snd a) (snd b).

(** The generator [arbitrary_biguint_of_len_at_most n]: the filter of
    [arbitrary_num] with [len(l) <= n] added. *)
Definition arbitrary_biguint_of_len_at_most (n : nat) (a : list Z) : Prop :=
  exists l, Forall arbitrary_uint l
            /\ (last_digit_nonzero l = true /\ (List.length l <= n)%nat)
            /\ a = add_eon l.

(** [success_function] of [test__len], [test__is_not_zero], [test__is_eq] and
    the two predicates of [test__assert_eq] in [test_biguint.py]. *)
Definition test__len_success_function (a_in : BigUint) (res : Z)
  : result unit :=
  assert (Z.of_nat (List.length (biguint_to_num a_in)) =? res + 1).

Definition test__is_not_zero_success_function (a_in : BigUint) (res : Z)
  : result unit :=
  let zero_value := num_to_biguint [EON] in
  assert (num_eqb (ptr a_in) (ptr zero_value) && (res =? 0)
          || negb (num_eqb (ptr a_in) (ptr zero_value)) && (res =? 1)).

Definition test__is_eq_success_function (a_in b_in : BigUint) (res : Z)
  : result unit :=
  assert (num_eqb (ptr a_in) (ptr b_in) && (res =? 1)
          || negb (num_eqb (ptr a_in) (ptr b_in)) && (res =? 0)).

Definition test__assert_eq_success_function (a_in b_in : BigUint)
  : result unit :=
  assert (num_eqb (ptr a_in) (ptr b_in)).

Definition test__assert_eq_failure_function (a_in b_in : BigUint)
  : result unit :=
  assert (negb (num_eqb (ptr a_in) (ptr b_in))).

(** [success_function] of [test__compare], [test__is_lt] and [test__is_le] in
    [test_biguint.py]. *)
Definition test__compare_success_function (a_in b_in : BigUint) (res : Z)
  : result unit :=
  if biguint_to_int a_in <? biguint_to_int b_in then
    assert (res =? (-1) mod DEFAULT_PRIME)
  else if biguint_to_int a_in =? biguint_to_int b_in then
    assert (res =? 0)
  else if biguint_to_int a_in >? biguint_to_int b_in then
    assert (res =? 1)
  else Returned tt.

Definition test__is_lt_success_function (a_in b_in : BigUint) (res : Z)
  : result unit :=
  assert ((biguint_to_int a_in <? biguint_to_int b_in) && (res =? 1)
          || (biguint_to_int a_in >=? biguint_to_int b_in) && (res =? 0)).

Definition test__is_le_success_function (a_in b_in : BigUint) (res : Z)
  : result unit :=
  assert ((biguint_to_int a_in <=? biguint_to_int b_in) && (res =? 1)
          || (biguint_to_int a_in >? biguint_to_int b_in) && (res =? 0)).

(** [success_function] of [test__add], [test__sub], [test__mul_by_digit] and
    [test__mul] in [test_biguint.py]. *)
Definition test__add_success_function (a b res : BigUint) : result unit :=
  assert (biguint_to_int a + biguint_to_int b =? biguint_to_int res).

Definition test__sub_success_function (a b res : BigUint) (sign : Z)
  : result unit :=
  if sign =? 1 then
    assert (biguint_to_int res + biguint_to_int b =? biguint_to_int a)
  else if sign =? (-1) mod DEFAULT_PRIME then
    assert (biguint_to_int res + biguint_to_int a =? biguint_to_int b)
  else assert false.

Definition test__mul_by_digit_success_function (a : BigUint) (b : Z)
    (res : BigUint) : result unit :=
  assert (biguint_to_int a * b =? biguint_to_int res).

Definition test__mul_success_function (a b res : BigUint) : result unit :=
  assert (biguint_to_int a * biguint_to_int b =? biguint_to_int res).

(** The bodies of [test__utility_lrl] and [test__utility_rlr]. *)
Definition test__utility_lrl (a_biguint : BigUint) : result unit :=
  assert (num_eqb (ptr (int_to_biguint (biguint_to_int a_biguint)))
                  (ptr a_biguint)).

Definition test__utility_rlr (an_unbounded_unsigned_int : Z) : result unit :=
  assert (biguint_to_int (int_to_biguint an_unbounded_unsigned_int)
          =? an_unbounded_unsigned_int).

(** The body of [test__bigint_lrl] in [test_bigint.py]. *)
Definition test__bigint_lrl (a_bigint : Z * list Z) : result unit :=
  if bigint_eqb a_bigint (-1, add_eon []) then
    assert (bigint_eqb (int_to_bigint (bigint_to_int a_bigint)) (1, add_eon []))
  else
    assert (bigint_eqb (int_to_bigint (bigint_to_int a_bigint)) a_bigint).

(** [success_function] of [test__is_eq], [test__compare], [test__neg],
    [test__add], [test__sub] and [test__mul] in [test_bigint.py]; a bigint is
    the pair of its sign and its magnitude. *)
Definition bigint__is_eq_success_function (a b : Z * list Z) (res : Z)
  : result unit :=
  let a_int := bigint_to_int a in
  let b_int := bigint_to_int b in
  assert ((a_int =? b_int) && (res =? 1)
          || negb (a_int =? b_int) && (res =? 0)).

Definition bigint__compare_success_function (a_in b_in : Z * list Z) (res : Z)
  : result unit :=
  if bigint_to_int a_in <? bigint_to_int b_in then
    assert (res =? (-1) mod DEFAULT_PRIME)
  else if bigint_to_int a_in =? bigint_to_int b_in then
    assert (res =? 0)
  else if bigint_to_int a_in >? bigint_to_int b_in then
    assert (res =? 1)
  else Returned tt.

Definition bigint__neg_success_function (a res : Z * list Z) : result unit :=
  assert (bigint_to_int a =? -1 * bigint_to_int res).

Definition bigint__add_success_function (a b res : Z * list Z)
  : result unit :=
  assert (bigint_to_int a + bigint_to_int b =? bigint_to_int res).

Definition bigint__sub_success_function (a b res : Z * list Z)
  : result unit :=
  assert (bigint_to_int a - bigint_to_int b =? bigint_to_int res).

Definition bigint__mul_success_function (a b res : Z * list Z)
  : result unit :=
  assert (bigint_to_int a * bigint_to_int b =? bigint_to_int res).

End Radix.
End BigUint.

(* ================================================================== *)
(** * The rest of [cairo_smart_test_framework.py] *)
(* ================================================================== *)

(** The integer branch of [felt_heuristic]: "if x is an integer half-way to
    being the maximal felt value, then represent it as a negative value". *)
Definition felt_heuristic_int (x : Z) : Z :=
  if x >=? DEFAULT_PRIME / 2 then x - DEFAULT_PRIME else x.

(** The values [felt_heuristic] is applied to: integers, lists, tuples, and
    anything else (the labels of the accumulated results are strings). *)
Inductive pyval : Type :=
| PyInt (x : Z)
| PyList (l : list pyval)
| PyTuple (l : list pyval)
| PyStr (s : string).

(** [felt_heuristic]: lists and tuples both come back as lists. *)
Fixpoint felt_heuristic (x : pyval) : pyval :=
  match x with
  | PyInt n => PyInt (felt_heuristic_int n)
  | PyList l => PyList (map felt_heuristic l)
  | PyTuple l => PyList (map felt_heuristic l)
  | PyStr s => PyStr s
  end.

(** No integer inside a value exceeds [DEFAULT_PRIME]: so it is with the
    results of a run, which are field elements, and with the arguments the
    generators of the test files build. *)
Fixpoint all_felts (x : pyval) : Prop :=
  match x with
  | PyInt n => n <= DEFAULT_PRIME
  | PyList l | PyTuple l =>
      (fix all (l : list pyval) : Prop :=
         match l with
         | [] => True
         | y :: t => all_felts y /\ all t
         end) l
  | PyStr _ => True
  end.

(** The entries of the two good outcomes. *)
Definition as_expected (x : entry) : bool :=
  match x with
  | Entry2 label _ => String.eqb label "Failure (as expected)"
  | Entry3 label _ _ => String.eqb label "Success (as expected)"
  end.

Section FrameworkRest.

Variable Program : Type.
Variable cairo_function_runner :
  Program -> string -> list (string * Z) -> list string -> Z -> result (list Z).

(** [SmartTest.run_LastTest] and [SmartTest.invoke_LastTest_on], once a test
    class has been stashed in [LastTest].  While [LastTest] is still [None]
    the calls hand [None] on as the test class, whose attributes do not
    exist; that case is left out ([None]). *)
Definition SmartTest_run_LastTest (self : SmartTest Program)
    (some_arguments : list Z) : option (SmartTest Program * result unit) :=
  match LastTest Program self with
  | Some t =>
      Some (SmartTest_run Program cairo_function_runner self t some_arguments)
  | None => None
  end.

Definition SmartTest_invoke_LastTest_on (self : SmartTest Program)
    (some_arguments : list Z) : option (result (list Z)) :=
  match LastTest Program self with
  | Some t =>
      Some (invoke_function Program cairo_function_runner
              (test_object Program self) t some_arguments)
  | None => None
  end.

End FrameworkRest.

(* ================================================================== *)
(** * Facts about the test framework *)
(* ================================================================== *)

Section FrameworkFacts.

Variable Program : Type.
Variable cairo_function_runner :
  Program -> string -> list (string * Z) -> list string -> Z -> result (list Z).
Variable compile_cairo_code_from_ : string -> result Program.

Local Notation invoke := (invoke_function Program cairo_function_runner).
Local Notation run := (CairoTest_run Program cairo_function_runner).
Local Notation init := (SmartTest__init__ Program compile_cairo_code_from_).
Local Notation smart_run := (SmartTest_run Program cairo_function_runner).

Variable self : CairoTest Program.
Variable test_class : AbstractCairoTestClass.
Variable argument_values : list Z.

(** The four cells of the classifier, as the code routes them. *)
Lemma run_expected_failure e acc :
  invoke self test_class argument_values = Raised e ->
  returns_normally (failure_function test_class argument_values) = true ->
  run self test_class argument_values acc
  = (accumulate acc (ExpectedFailure argument_values), Returned tt).
Proof.
  intros Hinv Hpred. unfold CairoTest_run. rewrite Hinv.
  destruct (failure_function test_class argument_values); [reflexivity|].
  discriminate Hpred.
Qed.

Lemma run_unexpected_failure e_invoke e_predicate acc :
  invoke self test_class argument_values = Raised e_invoke ->
  failure_function test_class argument_values = Raised e_predicate ->
  run self test_class argument_values acc
  = (accumulate acc (UnexpectedFailure argument_values), Raised e_predicate).
Proof.
  intros Hinv Hpred. unfold CairoTest_run. now rewrite Hinv, Hpred.
Qed.

Lemma run_expected_success results acc :
  invoke self test_class argument_values = Returned results ->
  returns_normally (success_function test_class (argument_values ++ results))
  = true ->
  run self test_class argument_values acc
  = (accumulate acc (ExpectedSuccess argument_values results), Returned tt).
Proof.
  intros Hinv Hpred. unfold CairoTest_run. rewrite Hinv.
  destruct (success_function test_class (argument_values ++ results));
    [reflexivity|discriminate Hpred].
Qed.

Lemma run_unexpected_success_accumulating results e l :
  invoke self test_class argument_values = Returned results ->
  success_function test_class (argument_values ++ results) = Raised e ->
  run self test_class argument_values (Some l)
  = (Some (l ++ [UnexpectedSuccess argument_values results]), Raised e).
Proof.
  intros Hinv Hpred. unfold CairoTest_run. now rewrite Hinv, Hpred.
Qed.

Lemma run_unexpected_success_not_accumulating results e :
  invoke self test_class argument_values = Returned results ->
  success_function test_class (argument_values ++ results) = Raised e ->
  run self test_class argument_values None = (None, Returned tt).
Proof.
  intros Hinv Hpred. unfold CairoTest_run. now rewrite Hinv, Hpred.
Qed.

(** An attached list receives exactly one entry per call, whatever the
    outcome; without a list nothing is recorded. *)
Lemma run_appends_one_entry l :
  exists x, fst (run self test_class argument_values (Some l)) = Some (l ++ [x]).
Proof.
  unfold CairoTest_run.
  destruct (invoke self test_class argument_values) as [results|e].
  - destruct (success_function test_class (argument_values ++ results));
      eexists; reflexivity.
  - destruct (failure_function test_class argument_values);
      eexists; reflexivity.
Qed.

Lemma run_without_accumulator :
  fst (run self test_class argument_values None) = None.
Proof.
  unfold CairoTest_run.
  destruct (invoke self test_class argument_values) as [results|e].
  - now destruct (success_function test_class (argument_values ++ results)).
  - now destruct (failure_function test_class argument_values).
Qed.

(** Outside the unexpected-success cell the accumulator has no influence on
    the way the call ends. *)
Lemma run_control_flow_failure_branch e acc acc' :
  invoke self test_class argument_values = Raised e ->
  snd (run self test_class argument_values acc)
  = snd (run self test_class argument_values acc').
Proof.
  intros Hinv. unfold CairoTest_run. rewrite Hinv.
  now destruct (failure_function test_class argument_values).
Qed.

(** C3, as amended: when the invocation raises and the failure predicate
    raises too, [CairoTest.run] records an unexpected failure (when a list
    is attached) and the exception that leaves [run] is the one raised by
    the failure predicate. *)
Theorem run_reraises_failure_predicate_exception e_invoke e_predicate acc :
  invoke self test_class argument_values = Raised e_invoke ->
  failure_function test_class argument_values = Raised e_predicate ->
  snd (run self test_class argument_values acc) = Raised e_predicate
  /\ fst (run self test_class argument_values acc)
     = accumulate acc (UnexpectedFailure argument_values).
Proof.
  intros Hinv Hpred.
  rewrite (run_unexpected_failure e_invoke e_predicate acc Hinv Hpred).
  split; reflexivity.
Qed.

Variable harness : SmartTest Program.

Lemma smart_run_switched_off :
  run_tests Program harness = false ->
  smart_run harness test_class argument_values
  = ({| test_object := test_object Program harness;
        run_tests := false;
        LastTest := Some test_class;
        results_accumulator := results_accumulator Program harness |},
     Returned tt).
Proof.
  intros Hoff. unfold SmartTest_run. now rewrite Hoff.
Qed.

(** A call that raises leaves [LastTest] as it was. *)
Lemma smart_run_raise_keeps_LastTest e :
  snd (smart_run harness test_class argument_values) = Raised e ->
  LastTest Program (fst (smart_run harness test_class argument_values))
  = LastTest Program harness.
Proof.
  unfold SmartTest_run.
  destruct (run_tests Program harness); [|discriminate].
  destruct (run _ _ _ _) as [acc [u|e']]; [discriminate|reflexivity].
Qed.

(** C9, as amended: after every call to [SmartTest.run] that returns
    normally, [LastTest] is the test class of that call; calls made while
    [run_tests] is [False] always return normally and are among them. *)
Theorem smart_run_saves_LastTest :
  run_tests Program harness = false
  \/ returns_normally (snd (smart_run harness test_class argument_values))
     = true ->
  LastTest Program (fst (smart_run harness test_class argument_values))
  = Some test_class
  /\ snd (smart_run harness test_class argument_values) = Returned tt.
Proof.
  intros [Hoff|Hret].
  - rewrite (smart_run_switched_off Hoff). split; reflexivity.
  - revert Hret. unfold SmartTest_run.
    destruct (run_tests Program harness); [|split; reflexivity].
    destruct (run _ _ _ _) as [acc [u|e]]; simpl; intros Hret.
    + split; reflexivity.
    + discriminate Hret.
Qed.

(** When the compiler raises, the constructor raises the same exception. *)
Lemma init_compile_error f e :
  compile_cairo_code_from_ f = Raised e ->
  init None (Some f) = Raised e.
Proof. intros Hc. unfold SmartTest__init__. now rewrite Hc. Qed.

(** C10, as amended: given exactly one of [test_object] and [filename] - and,
    for a file name, a compilation that succeeds - the constructor returns a
    harness with [run_tests] set, no [LastTest] and no accumulator; given
    both or neither it raises [ValueError] and builds nothing. *)
Theorem init_exactly_one
    (test_object_arg : option (CairoTest Program)) (filename : option string) :
  (forall f, filename = Some f -> test_object_arg = None ->
             returns_normally (compile_cairo_code_from_ f) = true) ->
  if xorb (provided test_object_arg) (provided filename) then
    exists h, init test_object_arg filename = Returned h
              /\ run_tests Program h = true
              /\ LastTest Program h = None
              /\ results_accumulator Program h = None
              /\ (forall t, test_object_arg = Some t ->
                            test_object Program h = t)
  else
    exists msg, init test_object_arg filename = Raised (ValueError msg).
Proof.
  intros Hcompile. unfold SmartTest__init__.
  destruct test_object_arg as [t|], filename as [f|]; simpl.
  - eexists; reflexivity.
  - eexists; repeat split. intros t' Ht'. now injection Ht' as ->.
  - specialize (Hcompile f eq_refl eq_refl).
    destruct (compile_cairo_code_from_ f) as [p|e]; [|discriminate Hcompile].
    eexists; repeat split. intros t' Ht'. discriminate Ht'.
  - eexists; reflexivity.
Qed.

End FrameworkFacts.

(** ** The framework on concrete runs *)

(** C1: the success-branch [raise] is inside [if results_accumulator != None];
    without an accumulator a success that the predicate rejects is swallowed,
    and [CairoTest.run] returns normally. *)
Theorem run_swallows_unexpected_success :
  invoke_function _ stub_runner returning_program rejects_success [32; 32]
  = Returned [1]
  /\ success_function rejects_success ([32; 32] ++ [1]) = Raised AssertionError
  /\ CairoTest_run _ stub_runner returning_program rejects_success [32; 32] None
     = (None, Returned tt).
Proof. repeat split. Qed.

(** C2: on the same arguments the call returns normally without an
    accumulator and raises with one attached. *)
Theorem run_accumulator_changes_control_flow :
  snd (CairoTest_run _ stub_runner returning_program rejects_success
         [32; 32] None) = Returned tt
  /\ snd (CairoTest_run _ stub_runner returning_program rejects_success
            [32; 32] (Some [])) = Raised AssertionError.
Proof. split; reflexivity. Qed.

(** C3 fails as stated: the invocation raises a runner error, the failure
    predicate raises [AssertionError], and what leaves [run] is not the
    runner error. *)
Lemma run_does_not_reraise_invocation_exception :
  invoke_function _ stub_runner failing_program rejects_failure [32; 32]
  = Raised (RuntimeError "cairo run failed")
  /\ failure_function rejects_failure [32; 32] = Raised AssertionError
  /\ snd (CairoTest_run _ stub_runner failing_program rejects_failure
            [32; 32] (Some []))
     <> Raised (RuntimeError "cairo run failed").
Proof. repeat split. discriminate. Qed.

Lemma run_reraises_failure_predicate_exception_witness :
  invoke_function _ stub_runner failing_program rejects_failure [32; 32]
  = Raised (RuntimeError "cairo run failed")
  /\ failure_function rejects_failure [32; 32] = Raised AssertionError
  /\ snd (CairoTest_run _ stub_runner failing_program rejects_failure
            [32; 32] (Some [])) = Raised AssertionError
  /\ fst (CairoTest_run _ stub_runner failing_program rejects_failure
            [32; 32] (Some []))
     = accumulate (Some []) (UnexpectedFailure [32; 32]).
Proof.
  split; [reflexivity|]. split; [reflexivity|].
  apply (run_reraises_failure_predicate_exception _ stub_runner
           failing_program rejects_failure [32; 32]
           (RuntimeError "cairo run failed") AssertionError (Some []));
    reflexivity.
Defined.

(** C9 fails as stated: the underlying run raises, the exception leaves
    [SmartTest.run] before the assignment, and [LastTest] is not the test
    class of the call. *)
Lemma smart_run_raise_skips_LastTest :
  snd (SmartTest_run _ stub_runner fresh_harness rejects_failure [32; 32])
  = Raised AssertionError
  /\ LastTest _ (fst (SmartTest_run _ stub_runner fresh_harness
                        rejects_failure [32; 32]))
     <> Some rejects_failure.
Proof. split; [reflexivity|discriminate]. Qed.

Lemma smart_run_saves_LastTest_witness :
  (run_tests _ idle_harness = false
   \/ returns_normally
        (snd (SmartTest_run _ stub_runner idle_harness rejects_failure
                [32; 32])) = true)
  /\ LastTest _ (fst (SmartTest_run _ stub_runner idle_harness
                        rejects_failure [32; 32]))
     = Some rejects_failure
  /\ snd (SmartTest_run _ stub_runner idle_harness rejects_failure [32; 32])
     = Returned tt.
Proof.
  split; [left; reflexivity|].
  apply (smart_run_saves_LastTest _ stub_runner rejects_failure [32; 32]
           idle_harness).
  left; reflexivity.
Defined.

(** C10 fails as stated: only a file name is given, the compiler raises, and
    the constructor raises with it instead of building a harness. *)
Lemma init_with_filename_may_raise :
  xorb (provided (@None (CairoTest (result (list Z)))))
       (provided (Some "missing.cairo"%string)) = true
  /\ SmartTest__init__ _ stub_compile None (Some "missing.cairo"%string)
     = Raised (RuntimeError "file not found").
Proof. split; reflexivity. Qed.

Lemma init_exactly_one_witness :
  (forall f, Some "simple_cairo_function.cairo"%string = Some f ->
             @None (CairoTest (result (list Z))) = None ->
             returns_normally (stub_compile f) = true)
  /\ exists h,
       SmartTest__init__ _ stub_compile None
         (Some "simple_cairo_function.cairo"%string) = Returned h
       /\ run_tests _ h = true
       /\ LastTest _ h = None
       /\ results_accumulator _ h = None
       /\ (forall t, None = Some t -> test_object _ h = t).
Proof.
  split.
  - intros f Hf _. injection Hf as <-. reflexivity.
  - apply (init_exactly_one _ stub_compile None
             (Some "simple_cairo_function.cairo"%string)).
    intros f Hf _. injection Hf as <-. reflexivity.
Defined.

(* ================================================================== *)
(** * Facts about field elements and sequencing *)
(* ================================================================== *)

Lemma DEFAULT_PRIME_bounds : 2 * RC_BOUND < DEFAULT_PRIME.
Proof. reflexivity. Qed.

Lemma RC_BOUND_value : RC_BOUND = 2 ^ 128.
Proof. reflexivity. Qed.

Lemma assert_returns c : assert c = Returned tt <-> c = true.
Proof. destruct c; simpl; split; intros H; try reflexivity; discriminate H. Qed.

Lemma seq_returns (r k : result unit) :
  (r ;; k) = Returned tt <-> r = Returned tt /\ k = Returned tt.
Proof.
  destruct r as [[]|e]; simpl; split.
  - intros H; split; [reflexivity|exact H].
  - intros [_ H]; exact H.
  - intros H; discriminate H.
  - intros [H _]; discriminate H.
Qed.

Module FixedWidthFacts.
Import FixedWidth.

Lemma assert_felt_eq_num_returns a b :
  assert_felt_eq_num a b = Returned tt <-> a = num_to_felt b.
Proof.
  pose proof DEFAULT_PRIME_bounds as HP.
  assert (0 < RC_BOUND) by reflexivity.
  unfold assert_felt_eq_num, num_to_felt, mod_default_prime.
  rewrite seq_returns, !assert_returns, andb_true_iff.
  rewrite Z.leb_le, Z.ltb_lt, Z.eqb_eq.
  split.
  - intros [Hrange Hmod].
    apply Z.mod_divide in Hmod; [|lia].
    destruct Hmod as [k Hk].
    replace b with (a + (- k) * DEFAULT_PRIME) by lia.
    rewrite Z.mod_add by lia. now rewrite Z.mod_small.
  - intros ->. split.
    + apply Z.mod_pos_bound; lia.
    + rewrite Zminus_mod_idemp_l, Z.sub_diag. apply Z.mod_0_l; lia.
Qed.

Lemma num_to_felt_small a : 0 <= a < RC_BOUND -> num_to_felt a = a.
Proof.
  pose proof DEFAULT_PRIME_bounds. intros Ha.
  unfold num_to_felt. apply Z.mod_small. lia.
Qed.

Lemma num_to_felt_negative a :
  - RC_BOUND <= a < 0 -> num_to_felt a = a + DEFAULT_PRIME.
Proof.
  pose proof DEFAULT_PRIME_bounds. intros Ha.
  unfold num_to_felt.
  replace a with ((a + DEFAULT_PRIME) + (-1) * DEFAULT_PRIME) at 1 by lia.
  rewrite Z.mod_add by lia. apply Z.mod_small. lia.
Qed.

(** On the integers of magnitude below [RC_BOUND], [felt_to_num] undoes the
    encoding. *)
Lemma felt_to_num_num_to_felt a :
  - RC_BOUND <= a < RC_BOUND -> felt_to_num (num_to_felt a) = a.
Proof.
  pose proof DEFAULT_PRIME_bounds. intros Ha.
  unfold felt_to_num.
  destruct (Z.neg_nonneg_cases a) as [Hneg|Hpos].
  - rewrite num_to_felt_negative by lia.
    destruct (Z.geb_spec (a + DEFAULT_PRIME) RC_BOUND); lia.
  - rewrite num_to_felt_small by lia.
    destruct (Z.geb_spec a RC_BOUND); lia.
Qed.

Lemma sign_mul_abs b : sign b * b = Z.abs b.
Proof. unfold sign. destruct (Z.leb_spec 0 b); lia. Qed.

(** The predicate of [test__div_rem] accepts exactly the outputs that decode
    to a pair satisfying [div_rem_expected]. *)
Lemma div_rem_success_returns W a b quotient remainder :
  test__div_rem_success_function W a b quotient remainder = Returned tt <->
  div_rem_expected W a b (felt_to_num quotient) (felt_to_num remainder).
Proof.
  unfold test__div_rem_success_function, div_rem_expected.
  destruct ((b =? 0) || (a =? 0)).
  - now rewrite assert_returns, andb_true_iff, !Z.eqb_eq.
  - destruct (b =? -1), (a =? MIN_VAL W); simpl;
      try (now rewrite assert_returns, andb_true_iff, !Z.eqb_eq).
    + fold (sign a) (sign b).
      rewrite seq_returns, !assert_returns, andb_true_iff.
      rewrite Z.leb_le, Z.ltb_lt, Z.eqb_eq. tauto.
    + fold (sign a) (sign b).
      rewrite seq_returns, !assert_returns, andb_true_iff.
      rewrite Z.leb_le, Z.ltb_lt, Z.eqb_eq. tauto.
Qed.

Lemma remainder_condition a b r :
  a <> 0 -> (0 <= sign a * r < sign b * b <-> Remainder a b r /\ b <> 0).
Proof.
  intros Ha. rewrite sign_mul_abs. unfold Remainder, sign.
  destruct (Z.leb_spec 0 a); lia.
Qed.

(** One pair satisfies [div_rem_expected], and it is [expected_div_rem]. *)
Lemma div_rem_expected_unique W a b q r :
  div_rem_expected W a b q r <-> (q, r) = expected_div_rem W a b.
Proof.
  unfold div_rem_expected, expected_div_rem.
  destruct ((b =? 0) || (a =? 0)) eqn:Hcorner.
  - split; [intros [-> ->]; reflexivity|intros [= -> ->]; split; reflexivity].
  - apply orb_false_iff in Hcorner. destruct Hcorner as [Hb Ha].
    apply Z.eqb_neq in Hb, Ha.
    destruct (b =? -1).
    + destruct (a =? MIN_VAL W);
        (split; [intros [-> ->]; reflexivity
                |intros [= -> ->]; split; reflexivity]).
    + rewrite (remainder_condition a b r Ha). split.
      * intros [Heq [Hrem _]].
        destruct (Zquot_mod_unique_full a b q r Hrem Heq) as [-> ->].
        reflexivity.
      * intros [= -> ->]. split; [apply Z.quot_rem'|].
        split; [|exact Hb].
        unfold Remainder.
        destruct (Z.le_ge_cases 0 a) as [Hpos|Hneg].
        -- left. split; [exact Hpos|]. now apply Zrem_lt_pos.
        -- right. split; [exact Hneg|]. now apply Zrem_lt_neg.
Qed.

Lemma div_rem_success_at W a b q r quotient remainder :
  expected_div_rem W a b = (q, r) ->
  test__div_rem_success_function W a b quotient remainder = Returned tt <->
  felt_to_num quotient = q /\ felt_to_num remainder = r.
Proof.
  intros Hexp.
  rewrite div_rem_success_returns, div_rem_expected_unique, Hexp.
  split; [intros [= -> ->]; split; reflexivity|intros [-> ->]; reflexivity].
Qed.

Section Width.

Variable BIT_LENGTH : Z.
Hypothesis BIT_LENGTH_range : 1 <= BIT_LENGTH <= 128.

Local Notation WORD_SIZE := (WORD_SIZE BIT_LENGTH).
Local Notation SHIFT := (SHIFT BIT_LENGTH).
Local Notation MIN_VAL := (MIN_VAL BIT_LENGTH).
Local Notation MAX_VAL := (MAX_VAL BIT_LENGTH).
Local Notation num_check := (num_check BIT_LENGTH).

Lemma WORD_SIZE_SHIFT : WORD_SIZE = 2 * SHIFT.
Proof.
  unfold FixedWidth.WORD_SIZE, FixedWidth.SHIFT.
  replace BIT_LENGTH with (Z.succ (BIT_LENGTH - 1)) at 1 by lia.
  apply Z.pow_succ_r. lia.
Qed.

Lemma SHIFT_bounds : 1 <= SHIFT /\ 2 * SHIFT <= RC_BOUND.
Proof.
  unfold FixedWidth.SHIFT. rewrite RC_BOUND_value. split.
  - apply (Z.pow_le_mono_r 2 0 (BIT_LENGTH - 1)); lia.
  - change (2 ^ 128) with (2 * 2 ^ 127).
    apply Z.mul_le_mono_nonneg_l; [lia|].
    apply Z.pow_le_mono_r; lia.
Qed.

Lemma num_check_RC_BOUND a : num_check a -> - RC_BOUND <= a < RC_BOUND.
Proof.
  pose proof SHIFT_bounds.
  unfold FixedWidth.num_check, FixedWidth.MIN_VAL, FixedWidth.MAX_VAL. lia.
Qed.

Lemma eq_with_overflow_returns v res overflow :
  eq_with_overflow BIT_LENGTH v res overflow = Returned tt <->
  res = num_to_felt (fst (expected_with_overflow BIT_LENGTH v))
  /\ overflow = num_to_felt (snd (expected_with_overflow BIT_LENGTH v)).
Proof.
  unfold eq_with_overflow, expected_with_overflow.
  destruct (v >? MAX_VAL); [|destruct (v <? MIN_VAL)]; simpl;
    now rewrite seq_returns, !assert_felt_eq_num_returns.
Qed.

Lemma expected_with_overflow_in_range v :
  - WORD_SIZE <= v < WORD_SIZE ->
  num_check (fst (expected_with_overflow BIT_LENGTH v)).
Proof.
  pose proof WORD_SIZE_SHIFT as HW. pose proof SHIFT_bounds as HS.
  unfold expected_with_overflow, FixedWidth.num_check,
    FixedWidth.MIN_VAL, FixedWidth.MAX_VAL in *.
  intros Hv.
  destruct (Z.gtb_spec v (SHIFT - 1)); [simpl; lia|].
  destruct (Z.ltb_spec v (- SHIFT)); simpl; lia.
Qed.

Lemma expected_with_overflow_at_MAX :
  expected_with_overflow BIT_LENGTH (MAX_VAL + 1) = (MIN_VAL, 1).
Proof.
  pose proof WORD_SIZE_SHIFT as HW.
  unfold expected_with_overflow.
  destruct (Z.gtb_spec (MAX_VAL + 1) MAX_VAL); [|lia].
  f_equal. unfold FixedWidth.MIN_VAL, FixedWidth.MAX_VAL. lia.
Qed.

(** C5: for in-range operands the result and flag that [test__add]
    ([test__sub]) accepts are the encodings of the pair determined from the
    exact sum (difference) [v]: [(v - WORD_SIZE, 1)] above [MAX_VAL],
    [(v + WORD_SIZE, -1)] below [MIN_VAL], [(v, 0)] otherwise; that result is
    in range again; and [add(MAX_VAL, 1)] is [(MIN_VAL, 1)]. *)
Theorem signed_add_sub_expected a b :
  num_check a -> num_check b ->
  (forall res overflow,
      test__add_success_function BIT_LENGTH a b res overflow = Returned tt <->
      res = num_to_felt (fst (expected_with_overflow BIT_LENGTH (a + b)))
      /\ overflow = num_to_felt (snd (expected_with_overflow BIT_LENGTH (a + b))))
  /\ (forall res overflow,
      test__sub_success_function BIT_LENGTH a b res overflow = Returned tt <->
      res = num_to_felt (fst (expected_with_overflow BIT_LENGTH (a - b)))
      /\ overflow = num_to_felt (snd (expected_with_overflow BIT_LENGTH (a - b))))
  /\ num_check (fst (expected_with_overflow BIT_LENGTH (a + b)))
  /\ num_check (fst (expected_with_overflow BIT_LENGTH (a - b)))
  /\ (forall res overflow,
      test__add_success_function BIT_LENGTH MAX_VAL 1 res overflow
      = Returned tt <->
      res = num_to_felt MIN_VAL /\ overflow = 1).
Proof.
  intros Ha Hb.
  pose proof WORD_SIZE_SHIFT as HW.
  assert (Hsum : - WORD_SIZE <= a + b < WORD_SIZE)
    by (unfold FixedWidth.num_check, FixedWidth.MIN_VAL, FixedWidth.MAX_VAL
          in *; lia).
  assert (Hdiff : - WORD_SIZE <= a - b < WORD_SIZE)
    by (unfold FixedWidth.num_check, FixedWidth.MIN_VAL, FixedWidth.MAX_VAL
          in *; lia).
  split; [|split; [|split; [|split]]].
  - intros res overflow. apply eq_with_overflow_returns.
  - intros res overflow. apply eq_with_overflow_returns.
  - now apply expected_with_overflow_in_range.
  - now apply expected_with_overflow_in_range.
  - intros res overflow. unfold test__add_success_function.
    rewrite eq_with_overflow_returns, expected_with_overflow_at_MAX. simpl.
    rewrite (num_to_felt_small 1) by (rewrite RC_BOUND_value; lia).
    reflexivity.
Qed.

Lemma quot_rem_facts a b :
  a <> 0 -> b <> 0 ->
  a = b * (a ÷ b) + Z.rem a b /\ Remainder a b (Z.rem a b).
Proof.
  intros Ha Hb. split; [apply Z.quot_rem'|].
  unfold Remainder.
  destruct (Z.le_ge_cases 0 a) as [Hpos|Hneg].
  - left. split; [exact Hpos|]. now apply Zrem_lt_pos.
  - right. split; [exact Hneg|]. now apply Zrem_lt_neg.
Qed.

(** The quotient is bounded by the dividend in absolute value. *)
Lemma quot_abs_le a b q r :
  b <> 0 -> a = b * q + r -> Remainder a b r -> Z.abs q <= Z.abs a.
Proof.
  intros Hb Heq Hrem. unfold Remainder in Hrem.
  destruct (Z.lt_trichotomy q 0) as [Hq|[Hq|Hq]]; [|subst q; lia|];
    destruct (Z.lt_trichotomy b 0) as [Hb'|[Hb'|Hb']]; try lia; nia.
Qed.

Lemma expected_div_rem_in_range a b :
  num_check a -> num_check b ->
  num_check (fst (expected_div_rem BIT_LENGTH a b))
  /\ num_check (snd (expected_div_rem BIT_LENGTH a b)).
Proof.
  pose proof SHIFT_bounds as HS.
  unfold FixedWidth.num_check, expected_div_rem,
    FixedWidth.MIN_VAL, FixedWidth.MAX_VAL.
  intros Ha Hb.
  destruct ((b =? 0) || (a =? 0)) eqn:Hcorner; [simpl; lia|].
  apply orb_false_iff in Hcorner. destruct Hcorner as [Hb0 Ha0].
  apply Z.eqb_neq in Hb0, Ha0.
  destruct (Z.eqb_spec b (-1)) as [Hb1|Hb1].
  - destruct (Z.eqb_spec a (- SHIFT)); simpl; lia.
  - simpl.
    destruct (quot_rem_facts a b Ha0 Hb0) as [Heq Hrem].
    pose proof (quot_abs_le a b _ _ Hb0 Heq Hrem) as Hq.
    split; [|unfold Remainder in Hrem; lia].
    destruct (Z.eq_dec (a ÷ b) SHIFT) as [Hbad|Hok]; [|lia].
    (* the quotient reaches SHIFT only for MIN_VAL / -1 *)
    exfalso. rewrite Hbad in Heq. unfold Remainder in Hrem.
    assert (a = - SHIFT) by lia. nia.
Qed.

Lemma expected_div_rem_sign a b :
  snd (expected_div_rem BIT_LENGTH a b) = 0
  \/ Z.sgn (snd (expected_div_rem BIT_LENGTH a b)) = Z.sgn a.
Proof.
  unfold expected_div_rem.
  destruct ((b =? 0) || (a =? 0)) eqn:Hcorner; [left; reflexivity|].
  apply orb_false_iff in Hcorner. destruct Hcorner as [Hb0 Ha0].
  apply Z.eqb_neq in Hb0, Ha0.
  destruct (b =? -1); [left; reflexivity|]. simpl.
  destruct (quot_rem_facts a b Ha0 Hb0) as [_ Hrem].
  unfold Remainder in Hrem. lia.
Qed.

(** C4: for in-range operands the outputs that [test__div_rem] accepts are
    those that decode to a quotient [q] and a remainder [r] with: [q = 0] and
    [r = 0] when the divisor or the dividend is [0]; [q = -a] and [r = 0] when
    the divisor is [-1] and [a] is not [MIN_VAL]; [q = a] and [r = 0] when the
    divisor is [-1] and [a] is [MIN_VAL]; otherwise [a = b * q + r] and
    [0 <= sign a * r < sign b * b].  There is exactly one such pair, it is in
    range, its encoding is accepted, and its remainder is zero or has the sign
    of the dividend.  At width 6 the pairs for [(7, 2)], [(7, -2)], [(-7, 2)]
    and [(-7, -2)] are [(3, 1)], [(-3, 1)], [(-3, -1)] and [(3, -1)]. *)
Theorem div_rem_expected_result a b :
  num_check a -> num_check b ->
  (forall quotient remainder,
      test__div_rem_success_function BIT_LENGTH a b quotient remainder
      = Returned tt <->
      div_rem_expected BIT_LENGTH a b
        (felt_to_num quotient) (felt_to_num remainder))
  /\ (forall q r,
      div_rem_expected BIT_LENGTH a b q r <->
      (q, r) = expected_div_rem BIT_LENGTH a b)
  /\ (num_check (fst (expected_div_rem BIT_LENGTH a b))
      /\ num_check (snd (expected_div_rem BIT_LENGTH a b)))
  /\ test__div_rem_success_function BIT_LENGTH a b
       (num_to_felt (fst (expected_div_rem BIT_LENGTH a b)))
       (num_to_felt (snd (expected_div_rem BIT_LENGTH a b))) = Returned tt
  /\ (snd (expected_div_rem BIT_LENGTH a b) = 0
      \/ Z.sgn (snd (expected_div_rem BIT_LENGTH a b)) = Z.sgn a)
  /\ (forall quotient remainder,
      (test__div_rem_success_function 6 7 2 quotient remainder = Returned tt
       <-> felt_to_num quotient = 3 /\ felt_to_num remainder = 1)
      /\ (test__div_rem_success_function 6 7 (-2) quotient remainder
          = Returned tt
          <-> felt_to_num quotient = -3 /\ felt_to_num remainder = 1)
      /\ (test__div_rem_success_function 6 (-7) 2 quotient remainder
          = Returned tt
          <-> felt_to_num quotient = -3 /\ felt_to_num remainder = -1)
      /\ (test__div_rem_success_function 6 (-7) (-2) quotient remainder
          = Returned tt
          <-> felt_to_num quotient = 3 /\ felt_to_num remainder = -1)).
Proof.
  intros Ha Hb.
  destruct (expected_div_rem_in_range a b Ha Hb) as [Hq Hr].
  split; [intros; apply div_rem_success_returns|].
  split; [intros; apply div_rem_expected_unique|].
  split; [split; assumption|].
  split.
  { apply div_rem_success_returns, div_rem_expected_unique.
    rewrite !felt_to_num_num_to_felt by now apply num_check_RC_BOUND.
    now destruct (expected_div_rem BIT_LENGTH a b). }
  split; [apply expected_div_rem_sign|].
  intros quotient remainder.
  split; [|split; [|split]]; apply div_rem_success_at; reflexivity.
Qed.

(** ** The other predicates of the signed model *)

Lemma num_to_felt_in_range a : num_check a ->
  felt_to_num (num_to_felt a) = a.
Proof. intros Ha. apply felt_to_num_num_to_felt. now apply num_check_RC_BOUND. Qed.

Lemma expected_neg_in_range a :
  num_check a -> num_check (expected_neg BIT_LENGTH a).
Proof.
  pose proof SHIFT_bounds as HS.
  unfold expected_neg, FixedWidth.num_check, FixedWidth.MIN_VAL,
    FixedWidth.MAX_VAL.
  intros Ha. destruct (Z.eqb_spec a (- SHIFT)); lia.
Qed.

(** X9: for an in-range operand the result that [test__neg] accepts is the
    encoding of [-a], and of [a] itself at [MIN_VAL]; that value is in range
    again, negating twice gives the operand back, and in every case the value
    is the negation of [a] modulo [WORD_SIZE]. *)
Theorem neg_expected_result a :
  num_check a ->
  (forall res,
      test__neg_success_function BIT_LENGTH a res = Returned tt <->
      res = num_to_felt (expected_neg BIT_LENGTH a))
  /\ num_check (expected_neg BIT_LENGTH a)
  /\ expected_neg BIT_LENGTH (expected_neg BIT_LENGTH a) = a
  /\ (expected_neg BIT_LENGTH a + a) mod WORD_SIZE = 0.
Proof.
  pose proof SHIFT_bounds as HS. pose proof WORD_SIZE_SHIFT as HW.
  intros Ha. split; [|split; [now apply expected_neg_in_range|split]].
  - intros res. unfold test__neg_success_function, expected_neg.
    destruct (a =? MIN_VAL); simpl; apply assert_felt_eq_num_returns.
  - unfold expected_neg, FixedWidth.num_check, FixedWidth.MIN_VAL,
      FixedWidth.MAX_VAL in *.
    destruct (Z.eqb_spec a (- SHIFT)) as [->|Hne].
    + now rewrite Z.eqb_refl.
    + destruct (Z.eqb_spec (- a) (- SHIFT)); lia.
  - unfold expected_neg, FixedWidth.MIN_VAL.
    destruct (Z.eqb_spec a (- SHIFT)) as [->|Hne].
    + replace (- SHIFT + - SHIFT) with ((-1) * WORD_SIZE) by lia.
      apply Z.mod_mul. lia.
    + replace (- a + a) with 0 by lia. apply Z.mod_0_l. lia.
Qed.

(** X10: the predicate of [test__cond_neg] is that of [test__neg] when the
    flag is 1 and that of [test__id] when the flag is 0; for any other flag
    it raises [ValueError], whatever the result is, and a failed run is never
    accepted. *)
Theorem cond_neg_by_flag a b res :
  (b = 1 ->
   test__cond_neg_success_function BIT_LENGTH a b res
   = test__neg_success_function BIT_LENGTH a res)
  /\ (b = 0 ->
      test__cond_neg_success_function BIT_LENGTH a b res
      = test__id_success_function a res)
  /\ (b <> 0 -> b <> 1 ->
      exists msg,
        test__cond_neg_success_function BIT_LENGTH a b res
        = Raised (ValueError msg))
  /\ test__cond_neg_failure_function a b = Raised AssertionError.
Proof.
  unfold test__cond_neg_success_function, test__neg_success_function,
    test__id_success_function.
  split; [|split; [|split; [|reflexivity]]].
  - intros ->. simpl. now destruct (a =? MIN_VAL).
  - intros ->. reflexivity.
  - intros H0 H1.
    destruct (Z.eqb_spec b 1); [contradiction|].
    destruct (Z.eqb_spec b 0); [contradiction|].
    simpl. eexists; reflexivity.
Qed.

(** X11: for an in-range operand the result that [test__not] accepts is the
    encoding of [-(a + 1)], which is in range again; the predicate is the one
    of [test__xor] with second operand [-1]. *)
Theorem not_expected_result a :
  num_check a ->
  (forall res,
      test__not_success_function a res = Returned tt <->
      res = num_to_felt (- (a + 1)))
  /\ num_check (- (a + 1))
  /\ (forall res,
      test__not_success_function a res = test__xor_success_function a (-1) res).
Proof.
  intros Ha. split; [|split].
  - intros res. apply assert_felt_eq_num_returns.
  - unfold FixedWidth.num_check, FixedWidth.MIN_VAL, FixedWidth.MAX_VAL in *.
    lia.
  - intros res. unfold test__not_success_function, test__xor_success_function.
    rewrite Z.lxor_m1_r. unfold Z.lnot. f_equal. lia.
Qed.

Ltac comparison_cases :=
  rewrite ?seq_returns, ?assert_returns;
  repeat match goal with
         | |- context [Z.eqb ?x ?y] => destruct (Z.eqb_spec x y)
         | |- context [Z.ltb ?x ?y] => destruct (Z.ltb_spec x y)
         | |- context [Z.leb ?x ?y] => destruct (Z.leb_spec x y)
         | |- context [Z.gtb ?x ?y] => destruct (Z.gtb_spec x y)
         | |- context [Z.geb ?x ?y] => destruct (Z.geb_spec x y)
         end;
  simpl; intuition (try discriminate; try lia).

(** X12: the comparison predicates accept one result each, 1 when the
    relation holds and 0 when it does not, and the forms of [test_int16.py]
    and of [test_int6.py] accept the same results. *)
Theorem comparison_predicates a b res :
  (test__eq_success_function a b res = Returned tt
   <-> res = if a =? b then 1 else 0)
  /\ (test_int6__eq_success_function a b res = Returned tt
      <-> res = if a =? b then 1 else 0)
  /\ (test__lt_success_function a b res = Returned tt
      <-> res = if a <? b then 1 else 0)
  /\ (test_int6__lt_success_function a b res = Returned tt
      <-> res = if a <? b then 1 else 0)
  /\ (test__le_success_function a b res = Returned tt
      <-> res = if a <=? b then 1 else 0)
  /\ (test_int6__le_success_function a b res = Returned tt
      <-> res = if a <=? b then 1 else 0).
Proof.
  clear BIT_LENGTH_range.
  unfold test__eq_success_function, test_int6__eq_success_function,
    test__lt_success_function, test_int6__lt_success_function,
    test__le_success_function, test_int6__le_success_function.
  split; [|split; [|split; [|split; [|split]]]]; comparison_cases.
Qed.


Lemma WORD_SIZE_pos : 0 < WORD_SIZE.
Proof. pose proof SHIFT_bounds. pose proof WORD_SIZE_SHIFT. lia. Qed.

Lemma land_ALL_ONES x : Z.land x (ALL_ONES BIT_LENGTH) = x mod WORD_SIZE.
Proof.
  unfold ALL_ONES, FixedWidth.WORD_SIZE.
  replace (2 ^ BIT_LENGTH - 1) with (Z.ones BIT_LENGTH)
    by (rewrite Z.ones_equiv; lia).
  apply Z.land_ones. lia.
Qed.

Lemma pow2_mod_SHIFT a :
  0 <= a ->
  2 ^ a mod SHIFT = if a <=? BIT_LENGTH - 2 then 2 ^ a else 0.
Proof.
  intros Ha. unfold FixedWidth.SHIFT.
  destruct (Z.leb_spec a (BIT_LENGTH - 2)) as [Hsmall|Hlarge].
  - apply Z.mod_small. split; [apply Z.pow_nonneg; lia|].
    apply Z.pow_lt_mono_r; lia.
  - replace a with ((a - (BIT_LENGTH - 1)) + (BIT_LENGTH - 1)) by lia.
    rewrite Z.pow_add_r by lia. apply Z.mod_mul.
    apply Z.pow_nonzero; lia.
Qed.

Lemma expected_shl_wraps a b :
  0 <= b ->
  num_check (expected_shl BIT_LENGTH a b)
  /\ (b <= BIT_LENGTH - 2 ->
      (expected_shl BIT_LENGTH a b - a * 2 ^ b) mod WORD_SIZE = 0).
Proof.
  pose proof SHIFT_bounds as HS. pose proof WORD_SIZE_SHIFT as HW.
  intros Hb. unfold expected_shl.
  rewrite land_ALL_ONES, Z.shiftl_mul_pow2 by exact Hb.
  pose proof (Z.mod_pos_bound (a * 2 ^ b) WORD_SIZE WORD_SIZE_pos) as Hu.
  set (u := (a * 2 ^ b) mod WORD_SIZE) in *.
  assert (Hmod : (u - a * 2 ^ b) mod WORD_SIZE = 0).
  { unfold u. rewrite Zminus_mod_idemp_l, Z.sub_diag.
    apply Z.mod_0_l. lia. }
  unfold FixedWidth.num_check, FixedWidth.MIN_VAL, FixedWidth.MAX_VAL.
  destruct (Z.geb_spec b (BIT_LENGTH - 1)) as [Hbig|Hsmall].
  - split; [lia|intros; lia].
  - destruct (Z.gtb_spec u (SHIFT - 1)) as [Hneg|Hpos].
    + split; [lia|]. intros _.
      replace (u - WORD_SIZE - a * 2 ^ b)
        with ((u - a * 2 ^ b) + (-1) * WORD_SIZE) by lia.
      rewrite Z.mod_add by lia. exact Hmod.
    + split; [lia|]. intros _. exact Hmod.
Qed.

Lemma shl_success_returns a b res :
  0 <= b ->
  test__shl_success_function BIT_LENGTH a b res = Returned tt <->
  res = num_to_felt (expected_shl BIT_LENGTH a b).
Proof.
  intros Hb. unfold test__shl_success_function, expected_shl.
  rewrite seq_returns, assert_returns.
  destruct (Z.geb_spec b 0) as [_|Hneg]; [|lia].
  destruct (b >=? BIT_LENGTH - 1);
    [|destruct (Z.land (Z.shiftl a b) (ALL_ONES BIT_LENGTH) >? MAX_VAL)];
    rewrite assert_felt_eq_num_returns; tauto.
Qed.

(** X13: for a shift amount [b >= 0] the result that [test__shl] accepts is
    the encoding of one value, which is in range; for [b <= BIT_LENGTH - 2]
    that value is [a * 2 ^ b] reduced modulo [WORD_SIZE] into the signed
    range, and from [b = BIT_LENGTH - 1] on it is 0. *)
Theorem shl_expected_result a b :
  0 <= b ->
  (forall res,
      test__shl_success_function BIT_LENGTH a b res = Returned tt <->
      res = num_to_felt (expected_shl BIT_LENGTH a b))
  /\ num_check (expected_shl BIT_LENGTH a b)
  /\ (b <= BIT_LENGTH - 2 ->
      (expected_shl BIT_LENGTH a b - a * 2 ^ b) mod WORD_SIZE = 0)
  /\ (BIT_LENGTH - 1 <= b -> expected_shl BIT_LENGTH a b = 0).
Proof.
  intros Hb. destruct (expected_shl_wraps a b Hb) as [Hrange Hwrap].
  split; [|split; [exact Hrange|split; [exact Hwrap|]]].
  - intros res. now apply shl_success_returns.
  - intros Hbig. unfold expected_shl.
    destruct (Z.geb_spec b (BIT_LENGTH - 1)); [reflexivity|lia].
Qed.

Lemma expected_shl_1 b :
  0 <= b -> expected_shl BIT_LENGTH 1 b = 2 ^ b mod SHIFT.
Proof.
  pose proof SHIFT_bounds as HS. pose proof WORD_SIZE_SHIFT as HW.
  intros Hb. rewrite pow2_mod_SHIFT by exact Hb. unfold expected_shl.
  rewrite land_ALL_ONES, Z.shiftl_mul_pow2, Z.mul_1_l by exact Hb.
  destruct (Z.geb_spec b (BIT_LENGTH - 1)) as [Hbig|Hsmall];
    destruct (Z.leb_spec b (BIT_LENGTH - 2)); try lia.
  assert (Hpow : 0 < 2 ^ b <= 2 ^ (BIT_LENGTH - 2)).
  { split; [apply Z.pow_pos_nonneg; lia|apply Z.pow_le_mono_r; lia]. }
  assert (Hshift : SHIFT = 2 * 2 ^ (BIT_LENGTH - 2)).
  { unfold FixedWidth.SHIFT.
    replace (BIT_LENGTH - 1) with (Z.succ (BIT_LENGTH - 2)) by lia.
    apply Z.pow_succ_r. lia. }
  rewrite Z.mod_small by lia.
  unfold FixedWidth.MAX_VAL.
  destruct (Z.gtb_spec (2 ^ b) (SHIFT - 1)); lia.
Qed.

(** X14: for [a >= 0] the result that [test__pow2] accepts is
    [2 ^ a mod 2 ^ (BIT_LENGTH - 1)], as the comment above the predicate
    says, and [test__pow2] on [a] accepts the same results as [test__shl] on
    the operand 1 shifted by [a]. *)
Theorem pow2_expected_result a res :
  0 <= a ->
  (test__pow2_success_function BIT_LENGTH a res = Returned tt
   <-> res = 2 ^ a mod SHIFT)
  /\ (test__pow2_success_function BIT_LENGTH a res = Returned tt
      <-> test__shl_success_function BIT_LENGTH 1 a res = Returned tt).
Proof.
  pose proof SHIFT_bounds as HS.
  intros Ha.
  assert (Hpow : test__pow2_success_function BIT_LENGTH a res = Returned tt
                 <-> res = 2 ^ a mod SHIFT).
  { rewrite pow2_mod_SHIFT by exact Ha.
    unfold test__pow2_success_function.
    destruct (Z.leb_spec 0 a) as [_|Hneg]; [|lia]. simpl.
    destruct (a <=? BIT_LENGTH - 2); now rewrite assert_returns, Z.eqb_eq. }
  split; [exact Hpow|]. rewrite Hpow.
  rewrite (shl_success_returns 1 a res Ha).
  rewrite expected_shl_1 by exact Ha.
  rewrite num_to_felt_small; [reflexivity|].
  pose proof (Z.mod_pos_bound (2 ^ a) SHIFT). lia.
Qed.

Lemma shiftr_far a b :
  num_check a -> BIT_LENGTH - 1 <= b ->
  a / 2 ^ b = if a >=? 0 then 0 else -1.
Proof.
  pose proof SHIFT_bounds as HS.
  unfold FixedWidth.num_check, FixedWidth.MIN_VAL, FixedWidth.MAX_VAL.
  intros Ha Hb.
  assert (Hpow : SHIFT <= 2 ^ b)
    by (unfold FixedWidth.SHIFT; apply Z.pow_le_mono_r; lia).
  destruct (Z.geb_spec a 0) as [Hpos|Hneg].
  - apply Z.div_small. lia.
  - symmetry. apply (Z.div_unique a (2 ^ b) (-1) (a + 2 ^ b)); lia.
Qed.

Lemma shiftr_in_range a b :
  num_check a -> 0 <= b -> num_check (a / 2 ^ b).
Proof.
  pose proof SHIFT_bounds as HS.
  unfold FixedWidth.num_check, FixedWidth.MIN_VAL, FixedWidth.MAX_VAL.
  intros Ha Hb.
  assert (Hp : 0 < 2 ^ b) by (apply Z.pow_pos_nonneg; lia).
  pose proof (Z.div_mod a (2 ^ b) ltac:(lia)) as Hdm.
  pose proof (Z.mod_pos_bound a (2 ^ b) Hp) as Hr.
  set (q := a / 2 ^ b) in *. set (r := a mod 2 ^ b) in *.
  set (p := 2 ^ b) in *.
  destruct (Z.neg_nonneg_cases a) as [Hneg|Hpos]; split; nia.
Qed.

(** X15: for an in-range operand and a shift amount [b >= 0] the result that
    [test__shr] accepts is the encoding of [a] divided by [2 ^ b] and rounded
    down, also in the two cases the predicate treats apart ([0] and [-1] for
    shifts by [BIT_LENGTH - 1] or more); that value is in range. *)
Theorem shr_expected_result a b :
  num_check a -> 0 <= b ->
  (forall res,
      test__shr_success_function BIT_LENGTH a b res = Returned tt <->
      res = num_to_felt (a / 2 ^ b))
  /\ num_check (a / 2 ^ b).
Proof.
  intros Ha Hb. split; [|now apply shiftr_in_range].
  intros res. unfold test__shr_success_function.
  rewrite seq_returns, assert_returns.
  destruct (Z.geb_spec b 0) as [_|Hneg]; [|lia].
  destruct (Z.geb_spec b (BIT_LENGTH - 1)) as [Hbig|Hsmall]; simpl.
  - rewrite (shiftr_far a b Ha Hbig).
    destruct (Z.geb_spec a 0) as [Hpos|Hneg].
    + rewrite assert_felt_eq_num_returns. tauto.
    + destruct (Z.ltb_spec a 0); [|lia].
      rewrite assert_felt_eq_num_returns. tauto.
  - rewrite Z.shiftr_div_pow2 by exact Hb.
    rewrite assert_felt_eq_num_returns. tauto.
Qed.

Lemma felt_to_num_congruent x :
  exists k, x = felt_to_num x + k * DEFAULT_PRIME.
Proof.
  unfold felt_to_num. destruct (x >=? RC_BOUND); [exists 1|exists 0]; lia.
Qed.

Lemma room_for_products : 4 * (2 ^ 124 * 2 ^ 124) < DEFAULT_PRIME.
Proof. reflexivity. Qed.

Lemma mul_limbs a b :
  2 <= BIT_LENGTH -> num_check a -> num_check b ->
  (- SHIFT <= (a * b + SHIFT) mod WORD_SIZE - SHIFT < SHIFT)
  /\ (- SHIFT <= (a * b + SHIFT) / WORD_SIZE < SHIFT)
  /\ (a * b + SHIFT) mod WORD_SIZE - SHIFT
     + (a * b + SHIFT) / WORD_SIZE * WORD_SIZE = a * b.
Proof.
  pose proof SHIFT_bounds as HS. pose proof WORD_SIZE_SHIFT as HW.
  intros Hwidth Ha Hb.
  assert (H2 : 2 <= SHIFT).
  { unfold FixedWidth.SHIFT. change 2 with (2 ^ 1) at 1.
    apply Z.pow_le_mono_r; lia. }
  unfold FixedWidth.num_check, FixedWidth.MIN_VAL, FixedWidth.MAX_VAL in Ha, Hb.
  pose proof (Z.mod_pos_bound (a * b + SHIFT) WORD_SIZE WORD_SIZE_pos) as Hm.
  pose proof (Z.div_mod (a * b + SHIFT) WORD_SIZE ltac:(lia)) as Hdm.
  assert (Hab : - (SHIFT * SHIFT) <= a * b <= SHIFT * SHIFT) by nia.
  split; [lia|]. split; [|lia]. split.
  - apply Z.div_le_lower_bound; [lia|]. nia.
  - apply Z.div_lt_upper_bound; [lia|]. nia.
Qed.

(** X16: for in-range operands and a width from 2 to 125 the pair of outputs
    that [test__mul] accepts is the one that decodes to the low limb
    [(a * b + SHIFT) mod WORD_SIZE - SHIFT] and the overflow limb
    [(a * b + SHIFT) / WORD_SIZE]: both lie from [-SHIFT] up to, not
    including, [SHIFT], and the first plus [WORD_SIZE] times the second is
    [a * b] exactly, not only modulo [DEFAULT_PRIME]. *)
Theorem mul_expected_result a b res overflow :
  2 <= BIT_LENGTH <= 125 -> num_check a -> num_check b ->
  (test__mul_success_function BIT_LENGTH a b res overflow = Returned tt <->
   felt_to_num res = (a * b + SHIFT) mod WORD_SIZE - SHIFT
   /\ felt_to_num overflow = (a * b + SHIFT) / WORD_SIZE)
  /\ (- SHIFT <= (a * b + SHIFT) mod WORD_SIZE - SHIFT < SHIFT)
  /\ (- SHIFT <= (a * b + SHIFT) / WORD_SIZE < SHIFT)
  /\ (a * b + SHIFT) mod WORD_SIZE - SHIFT
     + (a * b + SHIFT) / WORD_SIZE * WORD_SIZE = a * b.
Proof.
  pose proof SHIFT_bounds as HS. pose proof WORD_SIZE_SHIFT as HW.
  pose proof room_for_products as Hroom.
  pose proof DEFAULT_PRIME_bounds as HP.
  intros Hwidth Ha Hb.
  destruct (mul_limbs a b ltac:(lia) Ha Hb) as (Hlo & Hhi & Hsum).
  split; [|split; [exact Hlo|split; [exact Hhi|exact Hsum]]].
  assert (Hc : SHIFT <= 2 ^ 124)
    by (unfold FixedWidth.SHIFT; apply Z.pow_le_mono_r; lia).
  set (c := 2 ^ 124) in *.
  unfold FixedWidth.num_check, FixedWidth.MIN_VAL, FixedWidth.MAX_VAL in Ha, Hb.
  assert (Hab : - (SHIFT * SHIFT) <= a * b <= SHIFT * SHIFT) by nia.
  destruct (felt_to_num_congruent res) as [k1 Hk1].
  destruct (felt_to_num_congruent overflow) as [k2 Hk2].
  unfold test__mul_success_function, mod_default_prime.
  rewrite !seq_returns, !assert_returns, !andb_true_iff.
  rewrite !Z.leb_le, !Z.ltb_lt, Z.eqb_eq.
  set (r := felt_to_num res) in *. set (o := felt_to_num overflow) in *.
  replace (res + overflow * (2 * SHIFT) - a * b)
    with ((r + o * (2 * SHIFT) - a * b) + (k1 + k2 * (2 * SHIFT)) * DEFAULT_PRIME)
    by lia.
  rewrite Z.mod_add by lia.
  split.
  - intros ([Ho1 Ho2] & [Hr1 Hr2] & Hmod).
    apply Z.mod_divide in Hmod; [|lia]. destruct Hmod as [k Hk].
    assert (Hsmall : - DEFAULT_PRIME < r + o * (2 * SHIFT) - a * b
                     < DEFAULT_PRIME) by nia.
    assert (k = 0) by nia. subst k.
    assert (Heq : a * b + SHIFT = WORD_SIZE * o + (r + SHIFT)) by lia.
    split.
    + pose proof (Z.mod_unique (a * b + SHIFT) WORD_SIZE o (r + SHIFT)
                    ltac:(left; lia) Heq). lia.
    + apply (Z.div_unique (a * b + SHIFT) WORD_SIZE o (r + SHIFT));
        [left; lia|exact Heq].
  - intros [Hr Ho]. rewrite Hr, Ho.
    split; [lia|]. split; [lia|].
    replace ((a * b + SHIFT) mod WORD_SIZE - SHIFT
             + (a * b + SHIFT) / WORD_SIZE * (2 * SHIFT) - a * b) with 0
      by (rewrite <- HW; lia).
    apply Z.mod_0_l. lia.
Qed.

(** *** Bit operations stay in range *)

Lemma high_bits_clear n x :
  0 <= n -> (forall m, n <= m -> Z.testbit x m = false) -> 0 <= x < 2 ^ n.
Proof.
  intros Hn Hbits.
  assert (Hx : x = x mod 2 ^ n).
  { apply Z.bits_inj'. intros m Hm.
    destruct (Z.lt_ge_cases m n) as [Hlow|Hhigh].
    - now rewrite Z.mod_pow2_bits_low.
    - rewrite Z.mod_pow2_bits_high by lia. now apply Hbits. }
  rewrite Hx. apply Z.mod_pos_bound. apply Z.pow_pos_nonneg; lia.
Qed.

Lemma high_bits_set n x :
  0 <= n -> (forall m, n <= m -> Z.testbit x m = true) -> - 2 ^ n <= x < 0.
Proof.
  intros Hn Hbits.
  assert (H : 0 <= Z.lnot x < 2 ^ n).
  { apply high_bits_clear; [exact Hn|]. intros m Hm.
    rewrite Z.lnot_spec by lia. now rewrite Hbits. }
  unfold Z.lnot in H. lia.
Qed.

Lemma high_bits_of_in_range n x :
  0 <= n -> - 2 ^ n <= x < 2 ^ n ->
  forall m, n <= m -> Z.testbit x m = (x <? 0).
Proof.
  intros Hn Hx m Hm.
  destruct (Z.ltb_spec x 0) as [Hneg|Hpos].
  - assert (Hl : Z.testbit (Z.lnot x) m = false).
    { rewrite <- (Z.mod_small (Z.lnot x) (2 ^ n)) by (unfold Z.lnot; lia).
      apply Z.mod_pow2_bits_high. lia. }
    rewrite Z.lnot_spec in Hl by lia. now apply negb_false_iff in Hl.
  - rewrite <- (Z.mod_small x (2 ^ n)) by lia.
    apply Z.mod_pow2_bits_high. lia.
Qed.

Lemma bit_operation_in_range (op : Z -> Z -> Z) (bop : bool -> bool -> bool) :
  (forall x y m, 0 <= m ->
                 Z.testbit (op x y) m = bop (Z.testbit x m) (Z.testbit y m)) ->
  forall a b, num_check a -> num_check b -> num_check (op a b).
Proof.
  intros Hspec a b Ha Hb.
  unfold FixedWidth.num_check, FixedWidth.MIN_VAL, FixedWidth.MAX_VAL,
    FixedWidth.SHIFT in *.
  set (n := BIT_LENGTH - 1) in *.
  assert (Hn : 0 <= n) by (unfold n; lia).
  assert (Hbits : forall m, n <= m ->
                            Z.testbit (op a b) m = bop (a <? 0) (b <? 0)).
  { intros m Hm. rewrite Hspec by lia.
    rewrite (high_bits_of_in_range n a Hn) by lia.
    rewrite (high_bits_of_in_range n b Hn) by lia. reflexivity. }
  destruct (bop (a <? 0) (b <? 0)).
  - pose proof (high_bits_set n (op a b) Hn Hbits). lia.
  - pose proof (high_bits_clear n (op a b) Hn Hbits). lia.
Qed.

(** X17: for in-range operands the values [a ^ b], [a & b] and [a | b] that
    [test__xor], [test__and] and [test__or] compare the result with are in
    range again, so a result that one of these predicates accepts decodes,
    under [felt_to_num], to exactly that value. *)
Theorem bit_operations_expected_result a b :
  num_check a -> num_check b ->
  (num_check (Z.lxor a b) /\ num_check (Z.land a b) /\ num_check (Z.lor a b))
  /\ (forall res,
      test__xor_success_function a b res = Returned tt ->
      felt_to_num res = Z.lxor a b)
  /\ (forall res,
      test__and_success_function a b res = Returned tt ->
      felt_to_num res = Z.land a b)
  /\ (forall res,
      test__or_success_function a b res = Returned tt ->
      felt_to_num res = Z.lor a b).
Proof.
  intros Ha Hb.
  assert (Hxor : num_check (Z.lxor a b))
    by (apply (bit_operation_in_range Z.lxor xorb); auto using Z.lxor_spec).
  assert (Hand : num_check (Z.land a b))
    by (apply (bit_operation_in_range Z.land andb); auto using Z.land_spec).
  assert (Hor : num_check (Z.lor a b))
    by (apply (bit_operation_in_range Z.lor orb); auto using Z.lor_spec).
  split; [repeat split; apply Hxor || apply Hand || apply Hor|].
  split; [|split]; intros res Hres;
    apply assert_felt_eq_num_returns in Hres; rewrite Hres;
    now apply num_to_felt_in_range.
Qed.

(** X25: the predicate of [test__felt_abs] accepts the absolute value of [a]
    with the encoding of its sign; among the outputs whose sign decodes to 1
    or -1 it accepts no other absolute value, and for [a <> 0] no other sign.
    Without that restriction it accepts every factorisation of [a]: the
    predicate alone does not force the sign to be 1 or -1.  A failed run is
    never accepted. *)
Theorem felt_abs_expected_result a a_abs a_sign :
  0 <= a_abs ->
  test__felt_abs_success_function a (Z.abs a) (num_to_felt (Z.sgn a))
  = Returned tt
  /\ (felt_to_num a_sign = 1 \/ felt_to_num a_sign = -1 ->
      (test__felt_abs_success_function a a_abs a_sign = Returned tt <->
       a_abs = Z.abs a /\ (a <> 0 -> felt_to_num a_sign = Z.sgn a)))
  /\ (0 <= a_sign < RC_BOUND ->
      test__felt_abs_success_function (a_abs * a_sign) a_abs a_sign
      = Returned tt)
  /\ test__felt_abs_failure_function a = Raised AssertionError.
Proof.
  clear BIT_LENGTH_range.
  intros Habs. unfold test__felt_abs_success_function.
  split; [|split; [|split; [|reflexivity]]].
  - rewrite assert_returns, Z.eqb_eq, felt_to_num_num_to_felt.
    + apply Z.abs_sgn.
    + assert (1 < RC_BOUND) by reflexivity. lia.
  - intros [Hsign|Hsign]; rewrite assert_returns, Z.eqb_eq, Hsign; lia.
  - intros Hsign. rewrite assert_returns, Z.eqb_eq. unfold felt_to_num.
    destruct (Z.geb_spec a_sign RC_BOUND); [lia|reflexivity].
Qed.

End Width.
End FixedWidthFacts.

(* ================================================================== *)
(** * Facts about the unbounded-precision model *)
(* ================================================================== *)

Module BigUintFacts.
Import BigUint.

Lemma last_digit_nonzero_tail d t :
  last_digit_nonzero (d :: t) = true -> last_digit_nonzero t = true.
Proof. destruct t as [|d' t']; [reflexivity|intros H; exact H]. Qed.

Lemma strip_trailing_zeros_last l :
  last_digit_nonzero (strip_trailing_zeros l) = true.
Proof.
  induction l as [|d t IH]; [reflexivity|]. simpl.
  destruct (strip_trailing_zeros t) as [|d' t'] eqn:Ht.
  - destruct (Z.eqb_spec d 0) as [Hd|Hd]; [reflexivity|].
    simpl. now apply negb_true_iff, Z.eqb_neq.
  - exact IH.
Qed.

Lemma strip_trailing_zeros_Forall (P : Z -> Prop) l :
  Forall P l -> Forall P (strip_trailing_zeros l).
Proof.
  induction 1 as [|d t Hd Ht IH]; [constructor|]. simpl.
  destruct (strip_trailing_zeros t) as [|d' t'].
  - destruct (d =? 0); [constructor|now constructor].
  - now constructor.
Qed.

Section Radix.

Variable BIT_LENGTH : Z.
Hypothesis BIT_LENGTH_range : 4 <= BIT_LENGTH <= 125.

Local Notation SHIFT := (SHIFT BIT_LENGTH).
Local Notation arbitrary_uint := (arbitrary_uint BIT_LENGTH).
Local Notation arbitrary_num := (arbitrary_num BIT_LENGTH).
Local Notation arbitrary_bigint := (arbitrary_bigint BIT_LENGTH).
Local Notation digits_to_int := (digits_to_int BIT_LENGTH).
Local Notation num_to_int := (num_to_int BIT_LENGTH).
Local Notation int_to_num := (int_to_num BIT_LENGTH).
Local Notation decompose := (decompose BIT_LENGTH).

Lemma SHIFT_ge_2 : 2 <= SHIFT.
Proof.
  unfold BigUint.SHIFT. change 2 with (2 ^ 1) at 1.
  apply Z.pow_le_mono_r; lia.
Qed.

Lemma strip_eon_add_eon l :
  Forall arbitrary_uint l -> strip_eon (add_eon l) = l.
Proof.
  unfold add_eon.
  induction 1 as [|d t Hd Ht IH]; [reflexivity|]. simpl.
  unfold BigUint.arbitrary_uint in Hd.
  destruct (Z.eqb_spec d EON) as [He|He]; [unfold EON in He; lia|].
  now rewrite IH.
Qed.

Lemma strip_trailing_zeros_value l :
  digits_to_int (strip_trailing_zeros l) = digits_to_int l.
Proof.
  induction l as [|d t IH]; [reflexivity|]. simpl.
  destruct (strip_trailing_zeros t) as [|d' t'].
  - simpl in IH. rewrite <- IH.
    destruct (Z.eqb_spec d 0) as [->|Hd]; simpl; lia.
  - simpl in *. now rewrite IH.
Qed.

Lemma digits_to_int_nonneg l :
  Forall arbitrary_uint l -> 0 <= digits_to_int l.
Proof.
  pose proof SHIFT_ge_2.
  induction 1 as [|d t Hd Ht IH]; simpl; [lia|].
  unfold BigUint.arbitrary_uint in Hd. nia.
Qed.

(** A canonical digit sequence that is not empty denotes a positive number. *)
Lemma digits_to_int_pos l :
  Forall arbitrary_uint l -> last_digit_nonzero l = true -> l <> [] ->
  0 < digits_to_int l.
Proof.
  pose proof SHIFT_ge_2.
  induction 1 as [|d t Hd Ht IH]; intros Hlast Hne; [congruence|].
  unfold BigUint.arbitrary_uint in Hd.
  destruct t as [|d' t'].
  - simpl in *. apply negb_true_iff, Z.eqb_neq in Hlast. lia.
  - assert (0 < digits_to_int (d' :: t')) by (apply IH; [exact Hlast|congruence]).
    change (0 < d + SHIFT * digits_to_int (d' :: t')). nia.
Qed.

(** Canonical digit sequences are determined by the number they denote. *)
Lemma digits_to_int_inj l1 :
  forall l2,
    Forall arbitrary_uint l1 -> last_digit_nonzero l1 = true ->
    Forall arbitrary_uint l2 -> last_digit_nonzero l2 = true ->
    digits_to_int l1 = digits_to_int l2 -> l1 = l2.
Proof.
  pose proof SHIFT_ge_2.
  induction l1 as [|d1 t1 IH]; intros [|d2 t2] H1 Hl1 H2 Hl2 Heq.
  - reflexivity.
  - pose proof (digits_to_int_pos (d2 :: t2) H2 Hl2 ltac:(congruence)).
    simpl in *. lia.
  - pose proof (digits_to_int_pos (d1 :: t1) H1 Hl1 ltac:(congruence)).
    simpl in *. lia.
  - inversion H1 as [|? ? Hd1 Ht1]; inversion H2 as [|? ? Hd2 Ht2]; subst.
    unfold BigUint.arbitrary_uint in Hd1, Hd2. simpl in Heq.
    assert (Hv : digits_to_int t1 = digits_to_int t2)
      by (destruct (Z.lt_trichotomy (digits_to_int t1) (digits_to_int t2))
            as [Hlt|[Heq'|Hgt]]; [nia|exact Heq'|nia]).
    assert (d1 = d2) as -> by (rewrite Hv in Heq; lia).
    f_equal. apply IH; try assumption.
    + now apply last_digit_nonzero_tail in Hl1.
    + now apply last_digit_nonzero_tail in Hl2.
Qed.

Lemma decompose_Forall k : forall n, Forall arbitrary_uint (decompose k n).
Proof.
  pose proof SHIFT_ge_2.
  induction k as [|k IH]; intros n; simpl; constructor; [|apply IH].
  unfold BigUint.arbitrary_uint.
  pose proof (Z.mod_pos_bound n SHIFT). lia.
Qed.

Lemma decompose_value k :
  forall n, 0 <= n < SHIFT ^ Z.of_nat k -> digits_to_int (decompose k n) = n.
Proof.
  pose proof SHIFT_ge_2.
  induction k as [|k IH]; intros n Hn.
  - simpl in *. lia.
  - rewrite Nat2Z.inj_succ, Z.pow_succ_r in Hn by lia.
    simpl. rewrite IH.
    + pose proof (Z.div_mod n SHIFT). lia.
    + split; [apply Z.div_pos; lia|apply Z.div_lt_upper_bound; lia].
Qed.

(** A number has no more base-[SHIFT] digits than bits. *)
Lemma enough_positions n :
  0 <= n -> n < SHIFT ^ Z.of_nat (S (Z.to_nat (Z.log2 n))).
Proof.
  pose proof SHIFT_ge_2. intros Hn.
  rewrite Nat2Z.inj_succ, Z2Nat.id by apply Z.log2_nonneg.
  apply Z.lt_le_trans with (2 ^ Z.succ (Z.log2 n)).
  - destruct (Z.eq_dec n 0) as [->|Hn0].
    + simpl. lia.
    + apply Z.log2_spec. lia.
  - apply Z.pow_le_mono_l. lia.
Qed.

Lemma int_to_num_canonical n : arbitrary_num (int_to_num n).
Proof.
  unfold BigUint.arbitrary_num, BigUint.int_to_num.
  eexists. split; [|split; [|reflexivity]].
  - apply strip_trailing_zeros_Forall, decompose_Forall.
  - apply strip_trailing_zeros_last.
Qed.

Lemma num_to_int_int_to_num n : 0 <= n -> num_to_int (int_to_num n) = n.
Proof.
  intros Hn. unfold BigUint.num_to_int, BigUint.int_to_num.
  rewrite strip_eon_add_eon
    by apply strip_trailing_zeros_Forall, decompose_Forall.
  rewrite strip_trailing_zeros_value.
  apply decompose_value. split; [exact Hn|now apply enough_positions].
Qed.

Lemma num_to_int_nonneg a : arbitrary_num a -> 0 <= num_to_int a.
Proof.
  intros (l & Hl & _ & ->). unfold BigUint.num_to_int.
  rewrite strip_eon_add_eon by exact Hl. now apply digits_to_int_nonneg.
Qed.

Lemma int_to_num_num_to_int a :
  arbitrary_num a -> int_to_num (num_to_int a) = a.
Proof.
  intros Ha. pose proof (num_to_int_nonneg a Ha) as Hv.
  pose proof (num_to_int_int_to_num _ Hv) as Hround.
  destruct (int_to_num_canonical (num_to_int a)) as (l' & Hl' & Hlast' & Heq').
  destruct Ha as (l & Hl & Hlast & ->).
  rewrite Heq' in *. unfold BigUint.num_to_int in Hround.
  rewrite !strip_eon_add_eon in Hround by assumption.
  f_equal. now apply digits_to_int_inj.
Qed.

(** The zero magnitude is the only canonical magnitude that denotes 0. *)
Lemma num_to_int_zero a :
  arbitrary_num a -> num_to_int a = 0 -> a = add_eon [].
Proof.
  intros (l & Hl & Hlast & ->) Hz. unfold BigUint.num_to_int in Hz.
  rewrite strip_eon_add_eon in Hz by exact Hl.
  destruct l as [|d t]; [reflexivity|].
  pose proof (digits_to_int_pos (d :: t) Hl Hlast ltac:(congruence)). lia.
Qed.

Local Notation int_to_bigint := (int_to_bigint BIT_LENGTH).
Local Notation bigint_to_int := (bigint_to_int BIT_LENGTH).
Local Notation biguint_to_int := (biguint_to_int BIT_LENGTH).
Local Notation num_sub := (num_sub BIT_LENGTH).
Local Notation sub_with_borrow := (sub_with_borrow BIT_LENGTH).

Lemma bigint_to_int_int_to_bigint n : bigint_to_int (int_to_bigint n) = n.
Proof.
  unfold BigUint.int_to_bigint, BigUint.bigint_to_int, int_to_signed_abs.
  destruct (Z.geb_spec n 0); rewrite num_to_int_int_to_num; lia.
Qed.

Lemma int_to_bigint_bigint_to_int s a :
  arbitrary_sign s -> arbitrary_num a ->
  int_to_bigint (bigint_to_int (s, a))
  = if (s =? -1) && (num_to_int a =? 0) then (1, a) else (s, a).
Proof.
  intros Hs Ha. pose proof (num_to_int_nonneg a Ha) as Hv.
  unfold BigUint.int_to_bigint, BigUint.bigint_to_int, int_to_signed_abs.
  destruct Hs as [-> | ->]; simpl (_ =? -1); cbv iota; simpl andb.
  - destruct (Z.eqb_spec (num_to_int a) 0) as [Hz|Hnz].
    + rewrite Hz. simpl. rewrite <- Hz. now rewrite int_to_num_num_to_int.
    + destruct (Z.geb_spec (-1 * num_to_int a) 0); [lia|].
      replace (- (-1 * num_to_int a)) with (num_to_int a) by lia.
      now rewrite int_to_num_num_to_int.
  - destruct (Z.geb_spec (1 * num_to_int a) 0); [|lia].
    rewrite Z.mul_1_l. now rewrite int_to_num_num_to_int.
Qed.

(** C6: [bigint_to_int (int_to_bigint n) = n] for every integer [n];
    [int_to_bigint (bigint_to_int x) = x] for every canonical [x] other than
    [(-1, zero magnitude)], and for that one the round trip yields
    [(1, zero magnitude)]. *)
Theorem bigint_round_trips n x :
  arbitrary_bigint x ->
  bigint_to_int (int_to_bigint n) = n
  /\ (x <> (-1, add_eon []) -> int_to_bigint (bigint_to_int x) = x)
  /\ (x = (-1, add_eon []) ->
      int_to_bigint (bigint_to_int x) = (1, add_eon [])).
Proof.
  destruct x as [s a]. intros [Hs Ha]. simpl in Hs, Ha.
  split; [apply bigint_to_int_int_to_bigint|].
  rewrite (int_to_bigint_bigint_to_int s a Hs Ha).
  split.
  - intros Hx.
    destruct (Z.eqb_spec s (-1)) as [->|Hs1]; [|reflexivity].
    destruct (Z.eqb_spec (num_to_int a) 0) as [Hz|Hnz]; [|reflexivity].
    exfalso. apply Hx. f_equal. now apply num_to_int_zero.
  - intros [= -> ->]. reflexivity.
Qed.

Lemma pair_eqb_true x y : pair_eqb x y = true <-> x = y.
Proof.
  destruct x as [x1 x2], y as [y1 y2]. unfold pair_eqb. simpl.
  rewrite andb_true_iff, !Z.eqb_eq.
  split; [intros [-> ->]; reflexivity|intros [= -> ->]; split; reflexivity].
Qed.

(** C7: for canonical magnitudes the pair that [test__div] accepts is
    [(0, 0)] whenever the dividend or the divisor is 0, and otherwise the
    quotient and remainder with [a = b * quotient + remainder] and
    [0 <= remainder < b]; the predicate never divides by zero, and a run that
    raises is never accepted. *)
Theorem div_expected a_in b_in quotient_out remainder_out :
  arbitrary_num (ptr a_in) -> arbitrary_num (ptr b_in) ->
  (biguint_to_int a_in = 0 \/ biguint_to_int b_in = 0 ->
   (test__div_success_function BIT_LENGTH a_in b_in quotient_out remainder_out
    = Returned tt <->
    biguint_to_int quotient_out = 0 /\ biguint_to_int remainder_out = 0))
  /\ (biguint_to_int a_in <> 0 /\ biguint_to_int b_in <> 0 ->
      (test__div_success_function BIT_LENGTH a_in b_in quotient_out
         remainder_out = Returned tt <->
       biguint_to_int a_in
       = biguint_to_int b_in * biguint_to_int quotient_out
         + biguint_to_int remainder_out
       /\ 0 <= biguint_to_int remainder_out < biguint_to_int b_in))
  /\ test__div_success_function BIT_LENGTH a_in b_in quotient_out remainder_out
     <> Raised ZeroDivisionError
  /\ test__div_failure_function a_in b_in = Raised AssertionError.
Proof.
  intros Ha Hb.
  pose proof (num_to_int_nonneg _ Ha) as Ha0.
  pose proof (num_to_int_nonneg _ Hb) as Hb0.
  unfold test__div_success_function, BigUint.biguint_to_int, biguint_to_num
    in *.
  set (a := num_to_int (ptr a_in)) in *.
  set (b := num_to_int (ptr b_in)) in *.
  set (q := num_to_int (ptr quotient_out)).
  set (r := num_to_int (ptr remainder_out)).
  split; [|split; [|split; [|reflexivity]]].
  - intros Hzero.
    assert ((a =? 0) || (b =? 0) = true) as ->
      by (apply orb_true_iff; rewrite !Z.eqb_eq; exact Hzero).
    rewrite assert_returns, pair_eqb_true.
    split; [intros [= -> ->]; split; reflexivity|intros [-> ->]; reflexivity].
  - intros [Hanz Hbnz].
    assert ((a =? 0) || (b =? 0) = false) as ->
      by (apply orb_false_iff; rewrite !Z.eqb_neq; split; assumption).
    unfold divmod. apply Z.eqb_neq in Hbnz as Hbnz'. rewrite Hbnz'. simpl.
    rewrite assert_returns, pair_eqb_true. split.
    + intros [= -> ->]. split; [apply Z.div_mod; lia|].
      apply Z.mod_pos_bound; lia.
    + intros [Heq Hrange].
      destruct (Z.div_mod_unique b q (a / b) r (a mod b)) as [-> ->];
        try reflexivity.
      * left; exact Hrange.
      * left; apply Z.mod_pos_bound; lia.
      * rewrite <- Heq. apply Z.div_mod; lia.
  - destruct ((a =? 0) || (b =? 0)) eqn:Hz.
    + unfold assert. destruct (pair_eqb _ _); discriminate.
    + apply orb_false_iff in Hz. destruct Hz as [_ Hbnz].
      unfold divmod. rewrite Hbnz. simpl.
      unfold assert. destruct (pair_eqb _ _); discriminate.
Qed.

(** *** Borrow-propagating subtraction *)

Lemma arbitrary_uint_0 : arbitrary_uint 0.
Proof. pose proof SHIFT_ge_2. unfold BigUint.arbitrary_uint. lia. Qed.

Lemma columns_Forall a :
  forall b, Forall arbitrary_uint a -> Forall arbitrary_uint b ->
            Forall (in_columns BIT_LENGTH) (columns a b).
Proof.
  pose proof arbitrary_uint_0 as H0.
  induction a as [|x a' IH]; intros b Ha Hb.
  - simpl. induction Hb; simpl; constructor; [split; assumption|assumption].
  - inversion Ha as [|? ? Hx Ha']; subst.
    destruct b as [|y b'].
    + simpl. constructor; [split; assumption|].
      clear IH Ha. induction Ha'; simpl; constructor;
        [split; assumption|assumption].
    + inversion Hb as [|? ? Hy Hb']; subst. simpl.
      constructor; [split; assumption|now apply IH].
Qed.

Lemma digits_to_int_zeros (A : Type) (l : list A) :
  digits_to_int (map (fun _ => 0) l) = 0.
Proof. induction l as [|x t IH]; simpl; [reflexivity|rewrite IH; lia]. Qed.

Lemma columns_fst a :
  forall b, digits_to_int (map fst (columns a b)) = digits_to_int a.
Proof.
  induction a as [|x a' IH]; intros b.
  - simpl. rewrite map_map. simpl. apply digits_to_int_zeros.
  - destruct b as [|y b']; simpl.
    + rewrite map_map. simpl. now rewrite map_id.
    + now rewrite IH.
Qed.

Lemma columns_snd a :
  forall b, digits_to_int (map snd (columns a b)) = digits_to_int b.
Proof.
  induction a as [|x a' IH]; intros b.
  - simpl. rewrite map_map. simpl. now rewrite map_id.
  - destruct b as [|y b']; simpl.
    + rewrite map_map. simpl. rewrite (digits_to_int_zeros _ a'). lia.
    + now rewrite IH.
Qed.

Lemma columns_length a : forall b, List.length (columns a b) = List.length (columns b a).
Proof.
  induction a as [|x a' IH]; intros [|y b']; simpl;
    rewrite ?length_map; try reflexivity.
  now rewrite IH.
Qed.

(** The invariant of the column loop: digits stay in range, the borrow is 0
    or 1, and result and last borrow account for the difference. *)
Lemma sub_with_borrow_spec cols :
  forall borrow,
    0 <= borrow <= 1 -> Forall (in_columns BIT_LENGTH) cols ->
    Forall arbitrary_uint (fst (sub_with_borrow cols borrow))
    /\ 0 <= snd (sub_with_borrow cols borrow) <= 1
    /\ 0 <= digits_to_int (fst (sub_with_borrow cols borrow))
         < SHIFT ^ Z.of_nat (List.length cols)
    /\ digits_to_int (fst (sub_with_borrow cols borrow))
       - snd (sub_with_borrow cols borrow) * SHIFT ^ Z.of_nat (List.length cols)
       = digits_to_int (map fst cols) - digits_to_int (map snd cols) - borrow.
Proof.
  pose proof SHIFT_ge_2 as HS.
  induction cols as [|[x y] t IH]; intros borrow Hb Hcols.
  - simpl. repeat split; try constructor; lia.
  - inversion Hcols as [|? ? [Hx Hy] Ht]; subst.
    unfold BigUint.arbitrary_uint in Hx, Hy. simpl in Hx, Hy.
    cbn [BigUint.sub_with_borrow List.length map fst snd BigUint.digits_to_int].
    rewrite Nat2Z.inj_succ, Z.pow_succ_r by lia.
    unfold sub_digit.
    destruct (Z.ltb_spec (x - y - borrow) 0) as [Hneg|Hpos].
    + destruct (IH 1 ltac:(lia) Ht) as (Hr & Hbo & Hbound & Hval).
      destruct (sub_with_borrow t 1) as [r bo]. simpl in *.
      split; [constructor; [unfold BigUint.arbitrary_uint; lia|exact Hr]|].
      split; [exact Hbo|]. split; nia.
    + destruct (IH 0 ltac:(lia) Ht) as (Hr & Hbo & Hbound & Hval).
      destruct (sub_with_borrow t 0) as [r bo]. simpl in *.
      split; [constructor; [unfold BigUint.arbitrary_uint; lia|exact Hr]|].
      split; [exact Hbo|]. split; nia.
Qed.

Lemma num_sub_spec a b :
  arbitrary_num a -> arbitrary_num b ->
  arbitrary_num (snd (num_sub a b))
  /\ (fst (num_sub a b) = 1
      /\ num_to_int (snd (num_sub a b)) = num_to_int a - num_to_int b
      \/ fst (num_sub a b) = -1
         /\ num_to_int a < num_to_int b
         /\ num_to_int (snd (num_sub a b)) = num_to_int b - num_to_int a).
Proof.
  intros (la & Hla & _ & ->) (lb & Hlb & _ & ->).
  unfold BigUint.num_sub, BigUint.num_to_int.
  rewrite !strip_eon_add_eon by assumption.
  pose proof (sub_with_borrow_spec (columns la lb) 0 ltac:(lia)
                (columns_Forall la lb Hla Hlb)) as (Hr & Hbo & Hbound & Hval).
  pose proof (sub_with_borrow_spec (columns lb la) 0 ltac:(lia)
                (columns_Forall lb la Hlb Hla)) as (Hr' & Hbo' & Hbound' & Hval').
  rewrite columns_fst, columns_snd in Hval, Hval'.
  rewrite (columns_length lb la) in Hbound', Hval'.
  destruct (sub_with_borrow (columns la lb) 0) as [r bo].
  destruct (sub_with_borrow (columns lb la) 0) as [r' bo'].
  simpl in *.
  destruct (Z.eqb_spec bo 0) as [->|Hbo1]; simpl.
  - split.
    + exists (strip_trailing_zeros r).
      split; [now apply strip_trailing_zeros_Forall|].
      split; [apply strip_trailing_zeros_last|reflexivity].
    + left. split; [reflexivity|].
      rewrite strip_eon_add_eon by now apply strip_trailing_zeros_Forall.
      rewrite strip_trailing_zeros_value. lia.
  - assert (bo = 1) as -> by lia.
    split.
    + exists (strip_trailing_zeros r').
      split; [now apply strip_trailing_zeros_Forall|].
      split; [apply strip_trailing_zeros_last|reflexivity].
    + right. split; [reflexivity|].
      rewrite strip_eon_add_eon by now apply strip_trailing_zeros_Forall.
      rewrite strip_trailing_zeros_value.
      assert (bo' = 0) as -> by nia.
      lia.
Qed.

(** C8: on canonical magnitudes [num_sub a b] is [(1, a - b)] when
    [a >= b] and [(-1, b - a)] when [a < b]; the magnitude returned is
    canonical, and the check of [test__utility_sub] passes. *)
Theorem num_sub_sign_magnitude a b :
  arbitrary_num a -> arbitrary_num b ->
  (num_to_int a >= num_to_int b ->
   fst (num_sub a b) = 1
   /\ num_to_int (snd (num_sub a b)) = num_to_int a - num_to_int b)
  /\ (num_to_int a < num_to_int b ->
      fst (num_sub a b) = -1
      /\ num_to_int (snd (num_sub a b)) = num_to_int b - num_to_int a)
  /\ arbitrary_num (snd (num_sub a b))
  /\ test__utility_sub BIT_LENGTH (num_to_biguint a, num_to_biguint b)
     = Returned tt.
Proof.
  intros Ha Hb.
  destruct (num_sub_spec a b Ha Hb) as [Hcanon Hcases].
  assert (Hge : num_to_int a >= num_to_int b ->
                fst (num_sub a b) = 1
                /\ num_to_int (snd (num_sub a b))
                   = num_to_int a - num_to_int b).
  { intros Hge. destruct Hcases as [Hpos|(_ & Hlt & _)]; [exact Hpos|lia]. }
  assert (Hlt : num_to_int a < num_to_int b ->
                fst (num_sub a b) = -1
                /\ num_to_int (snd (num_sub a b))
                   = num_to_int b - num_to_int a).
  { intros Hlt. destruct Hcases as [[Hs Hv]|(Hs & _ & Hv)].
    - pose proof (num_to_int_nonneg _ Hcanon). lia.
    - split; assumption. }
  split; [exact Hge|]. split; [exact Hlt|]. split; [exact Hcanon|].
  unfold test__utility_sub, biguint_to_num, num_to_biguint. simpl.
  destruct (num_sub a b) as [sign res_num]. simpl in *.
  destruct (Z.geb_spec (num_to_int a) (num_to_int b)) as [Hc|Hc].
  - destruct (Hge ltac:(lia)) as [-> ->].
    apply assert_returns, pair_eqb_true. reflexivity.
  - destruct (Hlt Hc) as [-> ->].
    apply assert_returns, pair_eqb_true. reflexivity.
Qed.

(** ** The other predicates of the unbounded-precision tests *)

Local Notation int_to_biguint := (int_to_biguint BIT_LENGTH).

Lemma num_eqb_true a b : num_eqb a b = true <-> a = b.
Proof.
  unfold num_eqb. destruct (list_eq_dec Z.eq_dec a b); split; intros H;
    try reflexivity; try assumption; try discriminate; contradiction.
Qed.

Lemma bigint_eqb_true x y : bigint_eqb x y = true <-> x = y.
Proof.
  destruct x as [s a], y as [t b]. unfold bigint_eqb. simpl.
  rewrite andb_true_iff, Z.eqb_eq, num_eqb_true.
  split; [intros [-> ->]; reflexivity|intros [= -> ->]; split; reflexivity].
Qed.

Lemma num_to_int_inj a b :
  arbitrary_num a -> arbitrary_num b ->
  num_to_int a = num_to_int b -> a = b.
Proof.
  intros (la & Hla & Hlasta & ->) (lb & Hlb & Hlastb & ->).
  unfold BigUint.num_to_int. rewrite !strip_eon_add_eon by assumption.
  intros Heq. f_equal. now apply digits_to_int_inj.
Qed.

(** X18: the round-trip tests of the conversions pass on everything their
    generators produce: [test__utility_lrl] on every canonical magnitude,
    [test__utility_rlr] on every integer [n >= 0] and [test__bigint_lrl] on
    every canonical sign-magnitude pair; and whatever [int_to_num] returns is
    canonical.  ([int_to_num] and [num_to_int] are modelled from the
    specification.) *)
Theorem conversion_tests_pass a n x :
  arbitrary_num (ptr a) -> 0 <= n -> arbitrary_bigint x ->
  test__utility_lrl BIT_LENGTH a = Returned tt
  /\ test__utility_rlr BIT_LENGTH n = Returned tt
  /\ test__bigint_lrl BIT_LENGTH x = Returned tt
  /\ arbitrary_num (int_to_num n).
Proof.
  intros Ha Hn [Hs Hx]. split; [|split; [|split]].
  - unfold test__utility_lrl, BigUint.int_to_biguint, BigUint.biguint_to_int,
      num_to_biguint, biguint_to_num. simpl.
    apply assert_returns, num_eqb_true. now apply int_to_num_num_to_int.
  - unfold test__utility_rlr, BigUint.int_to_biguint, BigUint.biguint_to_int,
      num_to_biguint, biguint_to_num. simpl.
    apply assert_returns, Z.eqb_eq. now apply num_to_int_int_to_num.
  - destruct x as [s m]. simpl in Hs, Hx. unfold test__bigint_lrl.
    rewrite (int_to_bigint_bigint_to_int s m Hs Hx).
    destruct (bigint_eqb (s, m) (-1, add_eon [])) eqn:Hzero.
    + apply bigint_eqb_true in Hzero. injection Hzero as -> ->.
      apply assert_returns, bigint_eqb_true. reflexivity.
    + apply assert_returns, bigint_eqb_true.
      destruct (Z.eqb_spec s (-1)) as [->|Hs1]; [|reflexivity].
      destruct (Z.eqb_spec (num_to_int m) 0) as [Hz|Hnz]; [|reflexivity].
      apply (num_to_int_zero m Hx) in Hz. subst m.
      rewrite (proj2 (bigint_eqb_true _ _) eq_refl) in Hzero. discriminate.
  - apply int_to_num_canonical.
Qed.

(** X19: on canonical magnitudes the comparison of the digit sequences that
    [test__is_eq], [test__assert_eq] and [test__is_not_zero] make decides
    whether the numbers are equal: [is_eq] accepts 1 for equal numbers and 0
    otherwise, [assert_eq] expects success for equal numbers and failure
    otherwise, and [is_not_zero] accepts 0 for the number 0 and 1
    otherwise. *)
Theorem magnitude_equality_predicates a b res :
  arbitrary_num (ptr a) -> arbitrary_num (ptr b) ->
  (test__is_eq_success_function a b res = Returned tt
   <-> res = if biguint_to_int a =? biguint_to_int b then 1 else 0)
  /\ (test__assert_eq_success_function a b = Returned tt
      <-> biguint_to_int a = biguint_to_int b)
  /\ (test__assert_eq_failure_function a b = Returned tt
      <-> biguint_to_int a <> biguint_to_int b)
  /\ (test__is_not_zero_success_function a res = Returned tt
      <-> res = if biguint_to_int a =? 0 then 0 else 1).
Proof.
  intros Ha Hb.
  unfold test__is_eq_success_function, test__assert_eq_success_function,
    test__assert_eq_failure_function, test__is_not_zero_success_function,
    BigUint.biguint_to_int, biguint_to_num, num_to_biguint.
  simpl ptr.
  assert (Heq : num_eqb (ptr a) (ptr b)
                = (num_to_int (ptr a) =? num_to_int (ptr b))).
  { destruct (Z.eqb_spec (num_to_int (ptr a)) (num_to_int (ptr b)))
      as [He|Hne].
    - apply num_eqb_true. now apply num_to_int_inj.
    - destruct (num_eqb (ptr a) (ptr b)) eqn:Hq; [|reflexivity].
      apply num_eqb_true in Hq. rewrite Hq in Hne. contradiction. }
  assert (Hzero : num_eqb (ptr a) [EON] = (num_to_int (ptr a) =? 0)).
  { destruct (Z.eqb_spec (num_to_int (ptr a)) 0) as [He|Hne].
    - apply num_eqb_true. now apply num_to_int_zero.
    - destruct (num_eqb (ptr a) [EON]) eqn:Hq; [|reflexivity].
      apply num_eqb_true in Hq. rewrite Hq in Hne.
      exfalso. apply Hne. reflexivity. }
  rewrite Heq, Hzero, !assert_returns.
  split; [|split; [|split]].
  - destruct (Z.eqb_spec (num_to_int (ptr a)) (num_to_int (ptr b))); simpl;
      destruct (Z.eqb_spec res 1), (Z.eqb_spec res 0); simpl;
      intuition (try discriminate; try lia).
  - apply Z.eqb_eq.
  - rewrite negb_true_iff. apply Z.eqb_neq.
  - destruct (Z.eqb_spec (num_to_int (ptr a)) 0); simpl;
      destruct (Z.eqb_spec res 1), (Z.eqb_spec res 0); simpl;
      intuition (try discriminate; try lia).
Qed.

Lemma compare_returns a_int b_int res :
  (if a_int <? b_int then assert (res =? (-1) mod DEFAULT_PRIME)
   else if a_int =? b_int then assert (res =? 0)
   else if a_int >? b_int then assert (res =? 1)
   else Returned tt) = Returned tt
  <-> res = FixedWidth.num_to_felt (Z.sgn (a_int - b_int)).
Proof.
  unfold FixedWidth.num_to_felt.
  destruct (Z.ltb_spec a_int b_int) as [Hlt|Hge].
  - rewrite assert_returns, Z.eqb_eq.
    now replace (Z.sgn (a_int - b_int)) with (-1) by lia.
  - destruct (Z.eqb_spec a_int b_int) as [Heq|Hne].
    + rewrite assert_returns, Z.eqb_eq.
      now replace (Z.sgn (a_int - b_int)) with 0 by lia.
    + destruct (Z.gtb_spec a_int b_int) as [Hgt|Hle]; [|lia].
      rewrite assert_returns, Z.eqb_eq.
      now replace (Z.sgn (a_int - b_int)) with 1 by lia.
Qed.

Lemma felt_heuristic_int_sgn d :
  felt_heuristic_int (FixedWidth.num_to_felt (Z.sgn d)) = Z.sgn d.
Proof.
  destruct (Z.sgn_spec d) as [[_ ->]|[[_ ->]|[_ ->]]]; reflexivity.
Qed.

(** X20: the result that [test__compare] accepts, for magnitudes and for
    sign-magnitude pairs alike, is the encoding of the sign of the difference
    of the two numbers, which [felt_heuristic] decodes to -1, 0 or 1; and
    [test__is_lt] and [test__is_le] accept 1 exactly when that sign is -1,
    respectively not 1, and 0 otherwise. *)
Theorem compare_predicates a b x y res :
  (test__compare_success_function BIT_LENGTH a b res = Returned tt
   <-> res = FixedWidth.num_to_felt
               (Z.sgn (biguint_to_int a - biguint_to_int b)))
  /\ (bigint__compare_success_function BIT_LENGTH x y res = Returned tt
      <-> res = FixedWidth.num_to_felt
                  (Z.sgn (bigint_to_int x - bigint_to_int y)))
  /\ (test__compare_success_function BIT_LENGTH a b res = Returned tt ->
      felt_heuristic_int res = Z.sgn (biguint_to_int a - biguint_to_int b))
  /\ (test__is_lt_success_function BIT_LENGTH a b res = Returned tt
      <-> res = if Z.sgn (biguint_to_int a - biguint_to_int b) =? -1
                then 1 else 0)
  /\ (test__is_le_success_function BIT_LENGTH a b res = Returned tt
      <-> res = if Z.sgn (biguint_to_int a - biguint_to_int b) =? 1
                then 0 else 1).
Proof.
  clear BIT_LENGTH_range.
  split; [apply compare_returns|]. split; [apply compare_returns|].
  split.
  - intros H. apply compare_returns in H. rewrite H.
    apply felt_heuristic_int_sgn.
  - unfold test__is_lt_success_function, test__is_le_success_function.
    rewrite !assert_returns.
    set (u := biguint_to_int a). set (v := biguint_to_int b).
    split.
    + destruct (Z.ltb_spec u v), (Z.geb_spec u v),
        (Z.eqb_spec (Z.sgn (u - v)) (-1)),
        (Z.eqb_spec res 1), (Z.eqb_spec res 0); simpl;
        intuition (try discriminate; try lia).
    + destruct (Z.leb_spec u v), (Z.gtb_spec u v),
        (Z.eqb_spec (Z.sgn (u - v)) 1),
        (Z.eqb_spec res 1), (Z.eqb_spec res 0); simpl;
        intuition (try discriminate; try lia).
Qed.

Lemma biguint_of_value (res : BigUint) v :
  arbitrary_num (ptr res) -> 0 <= v ->
  (biguint_to_int res = v <-> res = int_to_biguint v).
Proof.
  intros Hres Hv. destruct res as [r]. simpl in Hres.
  unfold BigUint.biguint_to_int, BigUint.int_to_biguint, biguint_to_num,
    num_to_biguint. simpl. split.
  - intros <-. f_equal. symmetry. now apply int_to_num_num_to_int.
  - intros [= ->]. now apply num_to_int_int_to_num.
Qed.

Lemma minus_one_felt :
  (-1) mod DEFAULT_PRIME <> 1
  /\ FixedWidth.num_to_felt 1 = 1
  /\ FixedWidth.num_to_felt (-1) = (-1) mod DEFAULT_PRIME.
Proof. repeat split. discriminate. Qed.

(** X21: with canonical operands and a canonical result, [test__add] accepts
    exactly the magnitude of the sum, [test__mul] exactly the magnitude of
    the product and [test__mul_by_digit] exactly the magnitude of the product
    with the digit; [test__sub] accepts the magnitude of [a - b] with sign 1 when
    [a >= b] and the magnitude of [b - a] with the sign that encodes -1 when
    [b >= a], hence either of the two at equality; and the pair that
    [num_sub] returns is accepted.  ([int_to_num], [num_to_int] and [num_sub]
    are modelled from the specification.) *)
Theorem magnitude_arithmetic_predicates a b res sign digit :
  arbitrary_num (ptr a) -> arbitrary_num (ptr b) -> arbitrary_num (ptr res) ->
  0 <= digit ->
  (test__add_success_function BIT_LENGTH a b res = Returned tt
   <-> res = int_to_biguint (biguint_to_int a + biguint_to_int b))
  /\ (test__mul_success_function BIT_LENGTH a b res = Returned tt
      <-> res = int_to_biguint (biguint_to_int a * biguint_to_int b))
  /\ (test__mul_by_digit_success_function BIT_LENGTH a digit res = Returned tt
      <-> res = int_to_biguint (biguint_to_int a * digit))
  /\ (test__sub_success_function BIT_LENGTH a b res sign = Returned tt
      <-> (sign = 1 /\ biguint_to_int b <= biguint_to_int a
           /\ res = int_to_biguint (biguint_to_int a - biguint_to_int b))
          \/ (sign = (-1) mod DEFAULT_PRIME
              /\ biguint_to_int a <= biguint_to_int b
              /\ res = int_to_biguint (biguint_to_int b - biguint_to_int a)))
  /\ test__sub_success_function BIT_LENGTH a b
       (num_to_biguint (snd (num_sub (ptr a) (ptr b))))
       (FixedWidth.num_to_felt (fst (num_sub (ptr a) (ptr b)))) = Returned tt.
Proof.
  intros Ha Hb Hres Hdigit.
  assert (Ha0 : 0 <= biguint_to_int a) by now apply num_to_int_nonneg.
  assert (Hb0 : 0 <= biguint_to_int b) by now apply num_to_int_nonneg.
  assert (Hr0 : 0 <= biguint_to_int res) by now apply num_to_int_nonneg.
  destruct minus_one_felt as (Hm1 & Hf1 & Hfm1).
  split; [|split; [|split; [|split]]].
  - unfold test__add_success_function.
    rewrite assert_returns, Z.eqb_eq, <- biguint_of_value by (assumption || lia).
    split; intros H; lia.
  - unfold test__mul_success_function.
    rewrite assert_returns, Z.eqb_eq, <- biguint_of_value
      by (assumption || nia).
    split; intros H; lia.
  - unfold test__mul_by_digit_success_function.
    rewrite assert_returns, Z.eqb_eq, <- biguint_of_value
      by (assumption || nia).
    split; intros H; lia.
  - unfold test__sub_success_function.
    destruct (Z.eqb_spec sign 1) as [->|Hs1].
    + rewrite assert_returns, Z.eqb_eq. split.
      * intros H. left. split; [reflexivity|]. split; [lia|].
        apply biguint_of_value; [assumption|lia|lia].
      * intros [(_ & Hle & Hv)|(Hs & _)]; [|congruence].
        apply biguint_of_value in Hv; [lia|assumption|lia].
    + destruct (Z.eqb_spec sign ((-1) mod DEFAULT_PRIME)) as [->|Hsm].
      * rewrite assert_returns, Z.eqb_eq. split.
        -- intros H. right. split; [reflexivity|]. split; [lia|].
           apply biguint_of_value; [assumption|lia|lia].
        -- intros [(Hs & _)|(_ & Hle & Hv)]; [congruence|].
           apply biguint_of_value in Hv; [lia|assumption|lia].
      * split; [discriminate|]. intros [(Hs & _)|(Hs & _)]; contradiction.
  - destruct (num_sub_spec (ptr a) (ptr b) Ha Hb) as [_ Hcases].
    unfold test__sub_success_function, BigUint.biguint_to_int, biguint_to_num,
      num_to_biguint. simpl ptr.
    destruct Hcases as [[-> Hv]|(-> & _ & Hv)].
    + rewrite Hf1. simpl. apply assert_returns, Z.eqb_eq. lia.
    + rewrite Hfm1.
      destruct (Z.eqb_spec ((-1) mod DEFAULT_PRIME) 1) as [Hbad|_];
        [contradiction|].
      rewrite Z.eqb_refl. apply assert_returns, Z.eqb_eq. lia.
Qed.

Lemma bigint_of_value r v :
  arbitrary_bigint r ->
  (bigint_to_int r = v
   <-> r = int_to_bigint v \/ (v = 0 /\ r = (-1, add_eon []))).
Proof.
  destruct r as [s m]. intros [Hs Hm]. simpl in Hs, Hm. split.
  - intros <-. rewrite (int_to_bigint_bigint_to_int s m Hs Hm).
    destruct (Z.eqb_spec s (-1)) as [->|Hs1]; [|left; reflexivity].
    destruct (Z.eqb_spec (num_to_int m) 0) as [Hz|Hnz]; [|left; reflexivity].
    right. simpl. rewrite Hz. split; [reflexivity|].
    f_equal. now apply num_to_int_zero.
  - intros [->|[-> [= -> ->]]].
    + apply bigint_to_int_int_to_bigint.
    + reflexivity.
Qed.

Lemma bigint_result_accepted r v (c : bool) :
  arbitrary_bigint r ->
  (c = true <-> bigint_to_int r = v) ->
  (assert c = Returned tt
   <-> r = int_to_bigint v \/ (v = 0 /\ r = (-1, add_eon []))).
Proof.
  intros Hr Hc. rewrite assert_returns, Hc. now apply bigint_of_value.
Qed.

(** X22: two canonical sign-magnitude pairs denote the same integer exactly
    when they are the same pair or are the two representations of zero, and
    [test__is_eq] accepts 1 exactly for pairs that denote the same integer;
    with canonical operands and a canonical result, [test__neg], [test__add],
    [test__sub] and [test__mul] of [test_bigint.py] accept the pair
    [int_to_bigint] builds for the negation, sum, difference or product and,
    when that number is 0, the pair [(-1, zero magnitude)] as well, and
    nothing else.  ([int_to_num] and [num_to_int] are modelled from the
    specification.) *)
Theorem bigint_arithmetic_predicates x y r res :
  arbitrary_bigint x -> arbitrary_bigint y -> arbitrary_bigint r ->
  (bigint_to_int x = bigint_to_int y
   <-> x = y \/ (snd x = add_eon [] /\ snd y = add_eon []))
  /\ (bigint__is_eq_success_function BIT_LENGTH x y res = Returned tt
      <-> res = if bigint_to_int x =? bigint_to_int y then 1 else 0)
  /\ (bigint__neg_success_function BIT_LENGTH x r = Returned tt
      <-> r = int_to_bigint (- bigint_to_int x)
          \/ (bigint_to_int x = 0 /\ r = (-1, add_eon [])))
  /\ (bigint__add_success_function BIT_LENGTH x y r = Returned tt
      <-> r = int_to_bigint (bigint_to_int x + bigint_to_int y)
          \/ (bigint_to_int x + bigint_to_int y = 0 /\ r = (-1, add_eon [])))
  /\ (bigint__sub_success_function BIT_LENGTH x y r = Returned tt
      <-> r = int_to_bigint (bigint_to_int x - bigint_to_int y)
          \/ (bigint_to_int x - bigint_to_int y = 0 /\ r = (-1, add_eon [])))
  /\ (bigint__mul_success_function BIT_LENGTH x y r = Returned tt
      <-> r = int_to_bigint (bigint_to_int x * bigint_to_int y)
          \/ (bigint_to_int x * bigint_to_int y = 0 /\ r = (-1, add_eon []))).
Proof.
  intros Hx Hy Hr.
  split; [|split; [|split; [|split; [|split]]]].
  2:{ unfold bigint__is_eq_success_function. rewrite assert_returns.
      destruct (Z.eqb_spec (bigint_to_int x) (bigint_to_int y)); simpl;
        destruct (Z.eqb_spec res 1), (Z.eqb_spec res 0); simpl;
        intuition (try discriminate; try lia). }
  - destruct x as [s m], y as [t n].
    destruct Hx as [Hs Hm], Hy as [Ht Hn]. simpl in Hs, Hm, Ht, Hn.
    pose proof (num_to_int_nonneg _ Hm) as Hm0.
    pose proof (num_to_int_nonneg _ Hn) as Hn0.
    simpl. split.
    + intros Heq.
      destruct (Z.eq_dec (num_to_int m) 0) as [Hz|Hnz].
      * right. assert (num_to_int n = 0)
          by (destruct Hs as [-> | ->], Ht as [-> | ->]; lia).
        split; now apply num_to_int_zero.
      * left.
        assert (s = t /\ num_to_int m = num_to_int n) as [-> Hv]
          by (destruct Hs as [-> | ->], Ht as [-> | ->]; lia).
        f_equal. now apply num_to_int_inj.
    + intros [[= -> ->]|[-> ->]]; [reflexivity|].
      change (num_to_int (add_eon [])) with 0. lia.
  - etransitivity.
    + apply (bigint_result_accepted r (- bigint_to_int x)); [exact Hr|].
      rewrite Z.eqb_eq. lia.
    + split; (intros [H|[H1 H2]];
              [now left|right; split; [lia|assumption]]).
  - apply bigint_result_accepted; [exact Hr|]. rewrite Z.eqb_eq. lia.
  - apply bigint_result_accepted; [exact Hr|]. rewrite Z.eqb_eq. lia.
  - apply bigint_result_accepted; [exact Hr|]. rewrite Z.eqb_eq. lia.
Qed.

Lemma digits_to_int_upper l :
  Forall arbitrary_uint l ->
  digits_to_int l < SHIFT ^ Z.of_nat (List.length l).
Proof.
  pose proof SHIFT_ge_2 as HS.
  induction 1 as [|d t Hd Ht IH]; [simpl; lia|].
  unfold BigUint.arbitrary_uint in Hd.
  cbn [List.length BigUint.digits_to_int].
  rewrite Nat2Z.inj_succ, Z.pow_succ_r by lia. nia.
Qed.

Lemma digits_to_int_lower l :
  Forall arbitrary_uint l -> last_digit_nonzero l = true -> l <> [] ->
  SHIFT ^ (Z.of_nat (List.length l) - 1) <= digits_to_int l.
Proof.
  pose proof SHIFT_ge_2 as HS.
  induction 1 as [|d t Hd Ht IH]; intros Hlast Hne; [congruence|].
  unfold BigUint.arbitrary_uint in Hd.
  destruct t as [|d' t'].
  - simpl in *. apply negb_true_iff, Z.eqb_neq in Hlast. lia.
  - assert (Hrec : SHIFT ^ (Z.of_nat (List.length (d' :: t')) - 1)
                   <= digits_to_int (d' :: t'))
      by (apply IH; [exact Hlast|congruence]).
    change (digits_to_int (d :: d' :: t'))
      with (d + SHIFT * digits_to_int (d' :: t')).
    replace (Z.of_nat (List.length (d :: d' :: t')) - 1)
      with (Z.succ (Z.of_nat (List.length (d' :: t')) - 1))
      by (cbn [List.length]; lia).
    rewrite Z.pow_succ_r by (cbn [List.length]; lia).
    nia.
Qed.

Lemma add_eon_inj l l' : add_eon l = add_eon l' -> l = l'.
Proof. unfold add_eon. intros H. now apply app_inj_tail in H. Qed.

Lemma digits_count_bound n l :
  Forall arbitrary_uint l -> last_digit_nonzero l = true ->
  ((List.length l <= n)%nat <-> digits_to_int l < SHIFT ^ Z.of_nat n).
Proof.
  pose proof SHIFT_ge_2 as HS.
  intros Hl Hlast. split.
  - intros Hlen. apply Z.lt_le_trans with (SHIFT ^ Z.of_nat (List.length l)).
    + now apply digits_to_int_upper.
    + apply Z.pow_le_mono_r; lia.
  - intros Hv.
    destruct (le_lt_dec (List.length l) n) as [Hle|Hgt]; [exact Hle|].
    exfalso.
    assert (Hne : l <> []) by (destruct l; [simpl in Hgt; lia|congruence]).
    pose proof (digits_to_int_lower l Hl Hlast Hne) as Hlow.
    assert (SHIFT ^ Z.of_nat n <= SHIFT ^ (Z.of_nat (List.length l) - 1))
      by (apply Z.pow_le_mono_r; lia).
    lia.
Qed.

(** X23: the length-bounded generator restricts the values and nothing else:
    a canonical magnitude has at most [n] digits exactly when the number it
    denotes is below [SHIFT ^ n], and [int_to_num] of a number below
    [SHIFT ^ n] has at most [n] digits; the result that [test__len] accepts
    is the number of digits, the sentinel not counted.  ([int_to_num] and
    [num_to_int] are modelled from the specification.) *)
Theorem length_bound_is_value_bound n a v :
  arbitrary_num a -> 0 <= v < SHIFT ^ Z.of_nat n ->
  (arbitrary_biguint_of_len_at_most BIT_LENGTH n a
   <-> num_to_int a < SHIFT ^ Z.of_nat n)
  /\ arbitrary_biguint_of_len_at_most BIT_LENGTH n (int_to_num v)
  /\ (forall res,
      test__len_success_function (num_to_biguint a) res = Returned tt
      <-> res = Z.of_nat (List.length (strip_eon a))).
Proof.
  intros Ha Hv.
  assert (Hiff : forall c, arbitrary_num c ->
            (arbitrary_biguint_of_len_at_most BIT_LENGTH n c
             <-> num_to_int c < SHIFT ^ Z.of_nat n)).
  { intros c (l & Hl & Hlast & ->). unfold BigUint.num_to_int.
    rewrite strip_eon_add_eon by exact Hl.
    rewrite <- (digits_count_bound n l Hl Hlast). split.
    - intros (l' & _ & [_ Hlen] & Heq). apply add_eon_inj in Heq. now subst.
    - intros Hlen. exists l. repeat split; assumption. }
  split; [now apply Hiff|]. split.
  - apply Hiff; [apply int_to_num_canonical|].
    rewrite num_to_int_int_to_num; lia.
  - intros res. destruct Ha as (l & Hl & _ & ->).
    unfold test__len_success_function, biguint_to_num, num_to_biguint.
    simpl ptr. rewrite strip_eon_add_eon by exact Hl.
    unfold add_eon. rewrite length_app. simpl List.length.
    rewrite assert_returns, Z.eqb_eq. lia.
Qed.

End Radix.
End BigUintFacts.

(* ================================================================== *)
(** * The arithmetic models on concrete inputs *)
(* ================================================================== *)

Lemma signed_add_sub_expected_witness :
  1 <= 16 <= 128
  /\ FixedWidth.num_check 16 32767 /\ FixedWidth.num_check 16 1
  /\ (forall res overflow,
         FixedWidth.test__add_success_function 16 32767 1 res overflow
         = Returned tt <->
         res = FixedWidth.num_to_felt
                 (fst (FixedWidth.expected_with_overflow 16 (32767 + 1)))
         /\ overflow = FixedWidth.num_to_felt
                        (snd (FixedWidth.expected_with_overflow 16 (32767 + 1))))
  /\ FixedWidth.num_check 16
       (fst (FixedWidth.expected_with_overflow 16 (32767 + 1))).
Proof.
  assert (Hw : 1 <= 16 <= 128) by lia.
  assert (Ha : FixedWidth.num_check 16 32767) by (vm_compute; split; discriminate).
  assert (Hb : FixedWidth.num_check 16 1) by (vm_compute; split; discriminate).
  destruct (FixedWidthFacts.signed_add_sub_expected 16 Hw 32767 1 Ha Hb)
    as (Hadd & _ & Hrange & _).
  split; [exact Hw|]. split; [exact Ha|]. split; [exact Hb|].
  split; [exact Hadd|exact Hrange].
Defined.

Lemma div_rem_expected_result_witness :
  1 <= 6 <= 128
  /\ FixedWidth.num_check 6 (-7) /\ FixedWidth.num_check 6 2
  /\ (forall q r,
         FixedWidth.div_rem_expected 6 (-7) 2 q r <->
         (q, r) = FixedWidth.expected_div_rem 6 (-7) 2)
  /\ FixedWidth.test__div_rem_success_function 6 (-7) 2
       (FixedWidth.num_to_felt (fst (FixedWidth.expected_div_rem 6 (-7) 2)))
       (FixedWidth.num_to_felt (snd (FixedWidth.expected_div_rem 6 (-7) 2)))
     = Returned tt.
Proof.
  assert (Hw : 1 <= 6 <= 128) by lia.
  assert (Ha : FixedWidth.num_check 6 (-7)) by (vm_compute; split; discriminate).
  assert (Hb : FixedWidth.num_check 6 2) by (vm_compute; split; discriminate).
  destruct (FixedWidthFacts.div_rem_expected_result 6 Hw (-7) 2 Ha Hb)
    as (_ & Huniq & _ & Hacc & _).
  split; [exact Hw|]. split; [exact Ha|]. split; [exact Hb|].
  split; [exact Huniq|exact Hacc].
Defined.

Lemma bigint_round_trips_witness :
  4 <= 125 <= 125
  /\ BigUint.arbitrary_bigint 125 (-1, [3; -1])
  /\ BigUint.bigint_to_int 125 (BigUint.int_to_bigint 125 (-300)) = -300
  /\ BigUint.int_to_bigint 125 (BigUint.bigint_to_int 125 (-1, [3; -1]))
     = (-1, [3; -1]).
Proof.
  assert (Hw : 4 <= 125 <= 125) by lia.
  assert (Hx : BigUint.arbitrary_bigint 125 (-1, [3; -1])).
  { split; [left; reflexivity|].
    exists [3]. split; [|split; reflexivity].
    constructor; [vm_compute; split; discriminate|constructor]. }
  destruct (BigUintFacts.bigint_round_trips 125 Hw (-300) (-1, [3; -1]) Hx)
    as (Hrlr & Hlrl & _).
  split; [exact Hw|]. split; [exact Hx|]. split; [exact Hrlr|].
  apply Hlrl. discriminate.
Defined.

Lemma div_expected_witness :
  4 <= 125 <= 125
  /\ BigUint.arbitrary_num 125 [7; -1] /\ BigUint.arbitrary_num 125 [2; -1]
  /\ BigUint.test__div_success_function 125
       (BigUint.num_to_biguint [7; -1]) (BigUint.num_to_biguint [2; -1])
       (BigUint.num_to_biguint [3; -1]) (BigUint.num_to_biguint [1; -1])
     <> Raised ZeroDivisionError.
Proof.
  assert (Hw : 4 <= 125 <= 125) by lia.
  assert (Ha : BigUint.arbitrary_num 125 [7; -1]).
  { exists [7]. split; [|split; reflexivity].
    constructor; [vm_compute; split; discriminate|constructor]. }
  assert (Hb : BigUint.arbitrary_num 125 [2; -1]).
  { exists [2]. split; [|split; reflexivity].
    constructor; [vm_compute; split; discriminate|constructor]. }
  destruct (BigUintFacts.div_expected 125 Hw
              (BigUint.num_to_biguint [7; -1]) (BigUint.num_to_biguint [2; -1])
              (BigUint.num_to_biguint [3; -1]) (BigUint.num_to_biguint [1; -1])
              Ha Hb) as (_ & _ & Hnz & _).
  split; [exact Hw|]. split; [exact Ha|]. split; [exact Hb|exact Hnz].
Defined.

Lemma num_sub_sign_magnitude_witness :
  4 <= 125 <= 125
  /\ BigUint.arbitrary_num 125 [5; -1] /\ BigUint.arbitrary_num 125 [0; 1; -1]
  /\ BigUint.arbitrary_num 125 (snd (BigUint.num_sub 125 [5; -1] [0; 1; -1]))
  /\ BigUint.test__utility_sub 125
       (BigUint.num_to_biguint [5; -1], BigUint.num_to_biguint [0; 1; -1])
     = Returned tt.
Proof.
  assert (Hw : 4 <= 125 <= 125) by lia.
  assert (Ha : BigUint.arbitrary_num 125 [5; -1]).
  { exists [5]. split; [|split; reflexivity].
    constructor; [vm_compute; split; discriminate|constructor]. }
  assert (Hb : BigUint.arbitrary_num 125 [0; 1; -1]).
  { exists [0; 1]. split; [|split; reflexivity].
    repeat (constructor; [vm_compute; split; discriminate|]). constructor. }
  destruct (BigUintFacts.num_sub_sign_magnitude 125 Hw [5; -1] [0; 1; -1]
              Ha Hb) as (_ & _ & Hcanon & Htest).
  split; [exact Hw|]. split; [exact Ha|]. split; [exact Hb|].
  split; [exact Hcanon|exact Htest].
Defined.

(* ================================================================== *)
(** * Further facts about the test framework *)
(* ================================================================== *)

Section FrameworkRestFacts.

Variable Program : Type.
Variable cairo_function_runner :
  Program -> string -> list (string * Z) -> list string -> Z -> result (list Z).

Local Notation invoke := (invoke_function Program cairo_function_runner).
Local Notation run := (CairoTest_run Program cairo_function_runner).
Local Notation smart_run := (SmartTest_run Program cairo_function_runner).
Local Notation run_LastTest :=
  (SmartTest_run_LastTest Program cairo_function_runner).
Local Notation invoke_LastTest_on :=
  (SmartTest_invoke_LastTest_on Program cairo_function_runner).

(** X1: an exception that leaves [CairoTest.run] was raised by one of the two
    predicates: by [success_function] on the arguments and results of a run
    that succeeded, or by [failure_function] on the arguments of a run that
    raised.  The exception of the invocation itself never leaves [run]. *)
Theorem run_raises_only_predicate_exceptions
    (self : CairoTest Program) (test_class : AbstractCairoTestClass)
    (argument_values : list Z) (acc : option (list entry)) (e : exn) :
  snd (run self test_class argument_values acc) = Raised e ->
  (exists results,
      invoke self test_class argument_values = Returned results
      /\ success_function test_class (argument_values ++ results) = Raised e)
  \/ (exists e_invoke,
         invoke self test_class argument_values = Raised e_invoke
         /\ failure_function test_class argument_values = Raised e).
Proof.
  unfold CairoTest_run.
  destruct (invoke self test_class argument_values) as [results|e_invoke].
  - destruct (success_function test_class (argument_values ++ results))
      as [u|e'] eqn:Hpred.
    + discriminate.
    + destruct acc as [l|]; simpl; intros [= ->]. left. now exists results.
  - destruct (failure_function test_class argument_values) as [u|e'] eqn:Hpred.
    + discriminate.
    + simpl. intros [= ->]. right. now exists e_invoke.
Qed.

(** X2: with a list attached, every call to [CairoTest.run] appends one entry
    behind the entries already there, and the call returns normally exactly
    when that entry is one of the two "as expected" entries. *)
Theorem run_records_its_outcome
    (self : CairoTest Program) (test_class : AbstractCairoTestClass)
    (argument_values : list Z) (l : list entry) :
  exists x,
    fst (run self test_class argument_values (Some l)) = Some (l ++ [x])
    /\ (snd (run self test_class argument_values (Some l)) = Returned tt
        <-> as_expected x = true).
Proof.
  unfold CairoTest_run.
  destruct (invoke self test_class argument_values) as [results|e].
  - destruct (success_function test_class (argument_values ++ results))
      as [[]|e'];
      eexists; (split; [reflexivity|]); simpl; split; intros H;
      try reflexivity; discriminate H.
  - destruct (failure_function test_class argument_values) as [[]|e'];
      eexists; (split; [reflexivity|]); simpl; split; intros H;
      try reflexivity; discriminate H.
Qed.

Lemma run_with_list_outcome
    (self : CairoTest Program) (test_class : AbstractCairoTestClass)
    (argument_values : list Z) (l : list entry) :
  exists x r,
    run self test_class argument_values (Some l) = (Some (l ++ [x]), r)
    /\ (r = Returned tt <-> as_expected x = true).
Proof.
  unfold CairoTest_run.
  destruct (invoke self test_class argument_values) as [results|e].
  - destruct (success_function test_class (argument_values ++ results))
      as [[]|e'];
      do 2 eexists; (split; [reflexivity|]); simpl; split; intros H;
      try reflexivity; discriminate H.
  - destruct (failure_function test_class argument_values) as [[]|e'];
      do 2 eexists; (split; [reflexivity|]); simpl; split; intros H;
      try reflexivity; discriminate H.
Qed.

(** X5: [invoke_function] pairs the values with the declared argument names
    and stops at the shorter of the two: values beyond the last argument name
    never reach the function under test. *)
Theorem invoke_function_ignores_surplus_arguments
    (self : CairoTest Program) (test_class : AbstractCairoTestClass)
    (argument_values : list Z) :
  invoke self test_class
    (firstn (List.length (argument_names test_class)) argument_values)
  = invoke self test_class argument_values.
Proof.
  unfold invoke_function. f_equal.
  generalize argument_values as values.
  induction (argument_names test_class) as [|n names IH]; intros [|v values];
    simpl; try reflexivity.
  now rewrite IH.
Qed.

Lemma smart_run_fields
    (harness : SmartTest Program) (test_class : AbstractCairoTestClass)
    (argument_values : list Z) :
  test_object Program (fst (smart_run harness test_class argument_values))
  = test_object Program harness
  /\ run_tests Program (fst (smart_run harness test_class argument_values))
     = run_tests Program harness.
Proof.
  unfold SmartTest_run.
  destruct (run_tests Program harness) eqn:Hrun; [|split; reflexivity].
  destruct (run _ _ _ _) as [acc [u|e]]; split; simpl; auto.
Qed.

(** X3: [SmartTest.run] hands its own list to [CairoTest.run]: with a list
    attached and [run_tests] set, every call leaves one more entry in the
    harness, also when the call raises, and the call returns normally exactly
    when that entry is an "as expected" one; with [run_tests] off nothing is
    appended.  [test_object] and [run_tests] are never changed. *)
Theorem smart_run_accumulates
    (harness : SmartTest Program) (test_class : AbstractCairoTestClass)
    (argument_values : list Z) (l : list entry) :
  results_accumulator Program harness = Some l ->
  (test_object Program (fst (smart_run harness test_class argument_values))
   = test_object Program harness
   /\ run_tests Program (fst (smart_run harness test_class argument_values))
      = run_tests Program harness)
  /\ (run_tests Program harness = true ->
      exists x,
        results_accumulator Program
          (fst (smart_run harness test_class argument_values))
        = Some (l ++ [x])
        /\ (snd (smart_run harness test_class argument_values) = Returned tt
            <-> as_expected x = true))
  /\ (run_tests Program harness = false ->
      results_accumulator Program
        (fst (smart_run harness test_class argument_values)) = Some l).
Proof.
  intros Hacc. split; [apply smart_run_fields|]. split.
  - intros Hon. unfold SmartTest_run. rewrite Hon, Hacc.
    destruct (run_with_list_outcome (test_object Program harness) test_class
                argument_values l) as (x & r & -> & Hr).
    exists x. destruct r as [[]|e]; simpl; split; try reflexivity.
    + exact Hr.
    + destruct Hr as [Hr1 Hr2]. split; intros H; [discriminate H|].
      discriminate (Hr2 H).
  - intros Hoff. unfold SmartTest_run. rewrite Hoff. exact Hacc.
Qed.

Lemma smart_run_returned_LastTest
    (harness : SmartTest Program) (test_class : AbstractCairoTestClass)
    (argument_values : list Z) :
  snd (smart_run harness test_class argument_values) = Returned tt ->
  LastTest Program (fst (smart_run harness test_class argument_values))
  = Some test_class.
Proof.
  unfold SmartTest_run.
  destruct (run_tests Program harness); [|reflexivity].
  destruct (run _ _ _ _) as [acc [u|e]]; [reflexivity|discriminate].
Qed.

(** X4: after a call [SmartTest.run(test_class, first_arguments)] that
    returned normally, [run_LastTest(arguments)] is the call
    [run(test_class, arguments)] on the harness as that call left it, and
    [invoke_LastTest_on(arguments)] is the bare invocation of [test_class] on
    the harness's test object: it runs no predicate and touches no state. *)
Theorem run_then_LastTest
    (harness : SmartTest Program) (test_class : AbstractCairoTestClass)
    (first_arguments arguments : list Z) :
  snd (smart_run harness test_class first_arguments) = Returned tt ->
  run_LastTest (fst (smart_run harness test_class first_arguments)) arguments
  = Some (smart_run (fst (smart_run harness test_class first_arguments))
            test_class arguments)
  /\ invoke_LastTest_on (fst (smart_run harness test_class first_arguments))
       arguments
     = Some (invoke (test_object Program harness) test_class arguments).
Proof.
  intros Hret.
  pose proof (smart_run_returned_LastTest harness test_class first_arguments
                Hret) as Hlast.
  destruct (smart_run_fields harness test_class first_arguments) as [Hobj _].
  unfold SmartTest_run_LastTest, SmartTest_invoke_LastTest_on.
  rewrite Hlast, Hobj. split; reflexivity.
Qed.

End FrameworkRestFacts.

(** ** [felt_heuristic] *)

Lemma DEFAULT_PRIME_half :
  DEFAULT_PRIME = 2 * (DEFAULT_PRIME / 2) + 1 /\ RC_BOUND < DEFAULT_PRIME / 2.
Proof. split; reflexivity. Qed.

(** X6: on integers [felt_heuristic] undoes the encoding modulo
    [DEFAULT_PRIME] exactly on the window of integers from
    [DEFAULT_PRIME // 2 - DEFAULT_PRIME] up to, not including,
    [DEFAULT_PRIME // 2]: every integer [a] of the window is recovered from
    its encoding, and every field element [x] is sent to the one integer of
    the window that encodes to it. *)
Theorem felt_heuristic_int_decodes a x :
  DEFAULT_PRIME / 2 - DEFAULT_PRIME <= a < DEFAULT_PRIME / 2 ->
  0 <= x < DEFAULT_PRIME ->
  felt_heuristic_int (a mod DEFAULT_PRIME) = a
  /\ DEFAULT_PRIME / 2 - DEFAULT_PRIME <= felt_heuristic_int x
     < DEFAULT_PRIME / 2
  /\ felt_heuristic_int x mod DEFAULT_PRIME = x.
Proof.
  destruct DEFAULT_PRIME_half as [Hodd Hrc].
  assert (0 < RC_BOUND) by reflexivity.
  set (h := DEFAULT_PRIME / 2) in *. intros Ha Hx.
  unfold felt_heuristic_int. fold h. repeat split.
  - destruct (Z.neg_nonneg_cases a) as [Hneg|Hpos].
    + replace (a mod DEFAULT_PRIME) with (a + DEFAULT_PRIME).
      * destruct (Z.geb_spec (a + DEFAULT_PRIME) h); lia.
      * symmetry.
        replace a with ((a + DEFAULT_PRIME) + (-1) * DEFAULT_PRIME) at 1
          by lia.
        rewrite Z.mod_add by lia. apply Z.mod_small. lia.
    + rewrite Z.mod_small by lia. destruct (Z.geb_spec a h); lia.
  - destruct (Z.geb_spec x h); lia.
  - destruct (Z.geb_spec x h); lia.
  - destruct (Z.geb_spec x h).
    + replace (x - DEFAULT_PRIME) with (x + (-1) * DEFAULT_PRIME) by lia.
      rewrite Z.mod_add by lia. apply Z.mod_small. lia.
    + apply Z.mod_small. lia.
Qed.

(** X7: the decoder of the test files, [felt_to_num], and [felt_heuristic]
    give the same integer exactly for the values below [RC_BOUND] and from
    [DEFAULT_PRIME // 2] on; in between [felt_to_num] already reads a
    negative number and [felt_heuristic] does not. *)
Theorem felt_to_num_agrees_with_felt_heuristic x :
  FixedWidth.felt_to_num x = felt_heuristic_int x
  <-> x < RC_BOUND \/ DEFAULT_PRIME / 2 <= x.
Proof.
  destruct DEFAULT_PRIME_half as [Hodd Hrc].
  assert (0 < RC_BOUND) by reflexivity.
  set (h := DEFAULT_PRIME / 2) in *.
  unfold FixedWidth.felt_to_num, felt_heuristic_int. fold h.
  destruct (Z.geb_spec x RC_BOUND), (Z.geb_spec x h); lia.
Qed.

Lemma pyval_induction (P : pyval -> Prop) :
  (forall x, P (PyInt x)) ->
  (forall l, Forall P l -> P (PyList l)) ->
  (forall l, Forall P l -> P (PyTuple l)) ->
  (forall s, P (PyStr s)) ->
  forall v, P v.
Proof.
  intros HInt HList HTuple HStr.
  refine (fix IH (v : pyval) : P v :=
            match v with
            | PyInt x => HInt x
            | PyList l =>
                HList l ((fix all (l : list pyval) : Forall P l :=
                            match l with
                            | [] => Forall_nil P
                            | y :: t => Forall_cons y (IH y) (all t)
                            end) l)
            | PyTuple l =>
                HTuple l ((fix all (l : list pyval) : Forall P l :=
                             match l with
                             | [] => Forall_nil P
                             | y :: t => Forall_cons y (IH y) (all t)
                             end) l)
            | PyStr s => HStr s
            end).
Qed.

Lemma felt_heuristic_int_idempotent x :
  x <= DEFAULT_PRIME ->
  felt_heuristic_int (felt_heuristic_int x) = felt_heuristic_int x.
Proof.
  destruct DEFAULT_PRIME_half as [Hodd Hrc].
  assert (0 < RC_BOUND) by reflexivity.
  set (h := DEFAULT_PRIME / 2) in *.
  intros Hx. unfold felt_heuristic_int. fold h.
  destruct (Z.geb_spec x h) as [Hhi|Hlo].
  - destruct (Z.geb_spec (x - DEFAULT_PRIME) h); lia.
  - destruct (Z.geb_spec x h); lia.
Qed.

Lemma map_felt_heuristic_idempotent l :
  Forall (fun v => all_felts v ->
                   felt_heuristic (felt_heuristic v) = felt_heuristic v) l ->
  all_felts (PyList l) ->
  map felt_heuristic (map felt_heuristic l) = map felt_heuristic l.
Proof.
  induction 1 as [|y t Hy Ht IH]; [reflexivity|].
  intros [Hfy Hft]. simpl. rewrite (Hy Hfy). f_equal. now apply IH.
Qed.

(** X8: on values none of whose integers exceeds [DEFAULT_PRIME], applying
    [felt_heuristic] a second time changes nothing: what it returns is
    already decoded, and its tuples are already lists. *)
Theorem felt_heuristic_idempotent v :
  all_felts v ->
  felt_heuristic (felt_heuristic v) = felt_heuristic v.
Proof.
  induction v as [x|l IH|l IH|s] using pyval_induction; intros Hv.
  - simpl. f_equal. now apply felt_heuristic_int_idempotent.
  - simpl. f_equal. now apply map_felt_heuristic_idempotent.
  - simpl. f_equal. now apply map_felt_heuristic_idempotent.
  - reflexivity.
Qed.

(** ** A test of the signed model run through the framework *)

Section NumCheckTest.

Variable Program : Type.
Variable cairo_function_runner :
  Program -> string -> list (string * Z) -> list string -> Z -> result (list Z).
Variable BIT_LENGTH : Z.

(** X24: take a test class whose two predicates are those of
    [test__num_check] for the operand [a].  With a list attached,
    [CairoTest.run] returns normally exactly when the function under test
    succeeded on an in-range [a] or raised on an out-of-range [a]; in the two
    other cases it raises [AssertionError]. *)
Theorem num_check_test_verdict
    (self : CairoTest Program) (test_class : AbstractCairoTestClass)
    (argument_values : list Z) (a : Z) (l : list entry) :
  (forall results,
      success_function test_class (argument_values ++ results)
      = FixedWidth.test__num_check_success_function BIT_LENGTH a) ->
  failure_function test_class argument_values
  = FixedWidth.test__num_check_failure_function BIT_LENGTH a ->
  (snd (CairoTest_run Program cairo_function_runner self test_class
          argument_values (Some l)) = Returned tt
   <-> (returns_normally
          (invoke_function Program cairo_function_runner self test_class
             argument_values) = true
        <-> FixedWidth.num_check BIT_LENGTH a))
  /\ (snd (CairoTest_run Program cairo_function_runner self test_class
             argument_values (Some l)) = Returned tt
      \/ snd (CairoTest_run Program cairo_function_runner self test_class
                argument_values (Some l)) = Raised AssertionError).
Proof.
  intros Hsuccess Hfailure.
  unfold CairoTest_run, FixedWidth.num_check.
  destruct (invoke_function Program cairo_function_runner self test_class
              argument_values) as [results|e]; simpl.
  - rewrite Hsuccess.
    unfold FixedWidth.test__num_check_success_function, assert.
    destruct ((FixedWidth.MIN_VAL BIT_LENGTH <=? a)
              && (a <=? FixedWidth.MAX_VAL BIT_LENGTH)) eqn:Hc; simpl.
    + apply andb_true_iff in Hc. rewrite !Z.leb_le in Hc.
      split; [|now left]. split; [intros _|reflexivity].
      split; [intros _; exact Hc|reflexivity].
    + apply andb_false_iff in Hc. rewrite !Z.leb_gt in Hc.
      split; [|now right]. split; [discriminate|].
      intros [Hin _]. specialize (Hin eq_refl). lia.
  - rewrite Hfailure.
    unfold FixedWidth.test__num_check_failure_function, assert.
    destruct ((a <? FixedWidth.MIN_VAL BIT_LENGTH)
              || (FixedWidth.MAX_VAL BIT_LENGTH <? a)) eqn:Hc; simpl.
    + apply orb_true_iff in Hc. rewrite !Z.ltb_lt in Hc.
      split; [|now left]. split; [intros _|reflexivity].
      split; [discriminate|intros; lia].
    + apply orb_false_iff in Hc. rewrite !Z.ltb_ge in Hc.
      split; [|now right]. split; [discriminate|].
      intros [_ Hout].
      assert (Hbad : false = true) by (apply Hout; lia). discriminate Hbad.
Qed.

End NumCheckTest.

(* ================================================================== *)
(** * The further facts on concrete inputs *)
(* ================================================================== *)

Lemma run_raises_only_predicate_exceptions_witness :
  snd (CairoTest_run _ stub_runner failing_program rejects_failure [32; 32]
         (Some [])) = Raised AssertionError
  /\ ((exists results,
          invoke_function _ stub_runner failing_program rejects_failure
            [32; 32] = Returned results
          /\ success_function rejects_failure ([32; 32] ++ results)
             = Raised AssertionError)
      \/ (exists e_invoke,
             invoke_function _ stub_runner failing_program rejects_failure
               [32; 32] = Raised e_invoke
             /\ failure_function rejects_failure [32; 32]
                = Raised AssertionError)).
Proof.
  split; [reflexivity|].
  apply (run_raises_only_predicate_exceptions _ stub_runner failing_program
           rejects_failure [32; 32] (Some []) AssertionError).
  reflexivity.
Defined.

Lemma smart_run_accumulates_witness :
  results_accumulator _
    {| test_object := failing_program; run_tests := true;
       LastTest := None; results_accumulator := Some [] |} = Some []
  /\ exists x,
       results_accumulator _
         (fst (SmartTest_run _ stub_runner
                 {| test_object := failing_program; run_tests := true;
                    LastTest := None; results_accumulator := Some [] |}
                 rejects_failure [32; 32])) = Some ([] ++ [x])
       /\ (snd (SmartTest_run _ stub_runner
                  {| test_object := failing_program; run_tests := true;
                     LastTest := None; results_accumulator := Some [] |}
                  rejects_failure [32; 32]) = Returned tt
           <-> as_expected x = true).
Proof.
  split; [reflexivity|].
  destruct (smart_run_accumulates _ stub_runner
              {| test_object := failing_program; run_tests := true;
                 LastTest := None; results_accumulator := Some [] |}
              rejects_failure [32; 32] [] eq_refl) as (_ & Hon & _).
  exact (Hon eq_refl).
Defined.

Lemma run_then_LastTest_witness :
  snd (SmartTest_run _ stub_runner idle_harness rejects_failure [1; 2])
  = Returned tt
  /\ SmartTest_invoke_LastTest_on _ stub_runner
       (fst (SmartTest_run _ stub_runner idle_harness rejects_failure [1; 2]))
       [32; 32]
     = Some (invoke_function _ stub_runner (test_object _ idle_harness)
               rejects_failure [32; 32]).
Proof.
  split; [reflexivity|].
  apply (run_then_LastTest _ stub_runner idle_harness rejects_failure
           [1; 2] [32; 32]).
  reflexivity.
Defined.

Lemma felt_heuristic_int_decodes_witness :
  (DEFAULT_PRIME / 2 - DEFAULT_PRIME <= -3 < DEFAULT_PRIME / 2)
  /\ (0 <= 5 < DEFAULT_PRIME)
  /\ felt_heuristic_int ((-3) mod DEFAULT_PRIME) = -3.
Proof.
  assert (Ha : DEFAULT_PRIME / 2 - DEFAULT_PRIME <= -3 < DEFAULT_PRIME / 2)
    by (vm_compute; split; [discriminate|reflexivity]).
  assert (Hx : 0 <= 5 < DEFAULT_PRIME)
    by (vm_compute; split; [discriminate|reflexivity]).
  split; [exact Ha|]. split; [exact Hx|].
  apply (felt_heuristic_int_decodes (-3) 5 Ha Hx).
Defined.

Lemma felt_heuristic_idempotent_witness :
  all_felts (PyTuple [PyStr "Success (as expected)"; PyList [PyInt 5]])
  /\ felt_heuristic
       (felt_heuristic
          (PyTuple [PyStr "Success (as expected)"; PyList [PyInt 5]]))
     = felt_heuristic
         (PyTuple [PyStr "Success (as expected)"; PyList [PyInt 5]]).
Proof.
  assert (Hv : all_felts
                 (PyTuple [PyStr "Success (as expected)"; PyList [PyInt 5]]))
    by (simpl; repeat split; vm_compute; discriminate).
  split; [exact Hv|].
  apply (felt_heuristic_idempotent _ Hv).
Defined.

Lemma neg_expected_result_witness :
  1 <= 16 <= 128 /\ FixedWidth.num_check 16 (-32768)
  /\ FixedWidth.expected_neg 16 (FixedWidth.expected_neg 16 (-32768))
     = -32768.
Proof.
  assert (Hw : 1 <= 16 <= 128) by lia.
  assert (Ha : FixedWidth.num_check 16 (-32768))
    by (vm_compute; split; discriminate).
  split; [exact Hw|]. split; [exact Ha|].
  apply (FixedWidthFacts.neg_expected_result 16 Hw (-32768) Ha).
Defined.

Lemma not_expected_result_witness :
  FixedWidth.num_check 16 5 /\ FixedWidth.num_check 16 (- (5 + 1)).
Proof.
  assert (Ha : FixedWidth.num_check 16 5) by (vm_compute; split; discriminate).
  split; [exact Ha|].
  apply (FixedWidthFacts.not_expected_result 16 5 Ha).
Defined.

Lemma shl_expected_result_witness :
  1 <= 16 <= 128 /\ 0 <= 2
  /\ FixedWidth.num_check 16 (FixedWidth.expected_shl 16 3 2).
Proof.
  assert (Hw : 1 <= 16 <= 128) by lia.
  assert (Hb : 0 <= 2) by lia.
  split; [exact Hw|]. split; [exact Hb|].
  apply (FixedWidthFacts.shl_expected_result 16 Hw 3 2 Hb).
Defined.

Lemma pow2_expected_result_witness :
  1 <= 16 <= 128 /\ 0 <= 3
  /\ (FixedWidth.test__pow2_success_function 16 3 8 = Returned tt
      <-> 8 = 2 ^ 3 mod FixedWidth.SHIFT 16).
Proof.
  assert (Hw : 1 <= 16 <= 128) by lia.
  assert (Ha : 0 <= 3) by lia.
  split; [exact Hw|]. split; [exact Ha|].
  apply (FixedWidthFacts.pow2_expected_result 16 Hw 3 8 Ha).
Defined.

Lemma shr_expected_result_witness :
  1 <= 16 <= 128 /\ FixedWidth.num_check 16 (-7) /\ 0 <= 1
  /\ FixedWidth.num_check 16 (-7 / 2 ^ 1).
Proof.
  assert (Hw : 1 <= 16 <= 128) by lia.
  assert (Ha : FixedWidth.num_check 16 (-7))
    by (vm_compute; split; discriminate).
  assert (Hb : 0 <= 1) by lia.
  split; [exact Hw|]. split; [exact Ha|]. split; [exact Hb|].
  apply (FixedWidthFacts.shr_expected_result 16 Hw (-7) 1 Ha Hb).
Defined.

Lemma mul_expected_result_witness :
  1 <= 16 <= 128 /\ 2 <= 16 <= 125
  /\ FixedWidth.num_check 16 100 /\ FixedWidth.num_check 16 (-200)
  /\ (100 * -200 + FixedWidth.SHIFT 16) mod FixedWidth.WORD_SIZE 16
     - FixedWidth.SHIFT 16
     + (100 * -200 + FixedWidth.SHIFT 16) / FixedWidth.WORD_SIZE 16
       * FixedWidth.WORD_SIZE 16
     = 100 * -200.
Proof.
  assert (Hw : 1 <= 16 <= 128) by lia.
  assert (Hw' : 2 <= 16 <= 125) by lia.
  assert (Ha : FixedWidth.num_check 16 100)
    by (vm_compute; split; discriminate).
  assert (Hb : FixedWidth.num_check 16 (-200))
    by (vm_compute; split; discriminate).
  split; [exact Hw|]. split; [exact Hw'|]. split; [exact Ha|].
  split; [exact Hb|].
  apply (FixedWidthFacts.mul_expected_result 16 Hw 100 (-200) 0 0 Hw' Ha Hb).
Defined.

Lemma bit_operations_expected_result_witness :
  1 <= 16 <= 128 /\ FixedWidth.num_check 16 5 /\ FixedWidth.num_check 16 (-3)
  /\ (FixedWidth.num_check 16 (Z.lxor 5 (-3))
      /\ FixedWidth.num_check 16 (Z.land 5 (-3))
      /\ FixedWidth.num_check 16 (Z.lor 5 (-3))).
Proof.
  assert (Hw : 1 <= 16 <= 128) by lia.
  assert (Ha : FixedWidth.num_check 16 5) by (vm_compute; split; discriminate).
  assert (Hb : FixedWidth.num_check 16 (-3))
    by (vm_compute; split; discriminate).
  split; [exact Hw|]. split; [exact Ha|]. split; [exact Hb|].
  apply (FixedWidthFacts.bit_operations_expected_result 16 Hw 5 (-3) Ha Hb).
Defined.

Lemma conversion_tests_pass_witness :
  4 <= 125 <= 125
  /\ BigUint.arbitrary_num 125 (BigUint.ptr (BigUint.num_to_biguint [3; -1]))
  /\ 0 <= 7
  /\ BigUint.arbitrary_bigint 125 (-1, [3; -1])
  /\ BigUint.test__utility_lrl 125 (BigUint.num_to_biguint [3; -1])
     = Returned tt.
Proof.
  assert (Hw : 4 <= 125 <= 125) by lia.
  assert (Ha : BigUint.arbitrary_num 125
                 (BigUint.ptr (BigUint.num_to_biguint [3; -1]))).
  { exists [3]. split; [|split; reflexivity].
    constructor; [vm_compute; split; discriminate|constructor]. }
  assert (Hn : 0 <= 7) by lia.
  assert (Hx : BigUint.arbitrary_bigint 125 (-1, [3; -1])).
  { split; [left; reflexivity|exact Ha]. }
  split; [exact Hw|]. split; [exact Ha|]. split; [exact Hn|].
  split; [exact Hx|].
  apply (BigUintFacts.conversion_tests_pass 125 Hw
           (BigUint.num_to_biguint [3; -1]) 7 (-1, [3; -1]) Ha Hn Hx).
Defined.

Lemma magnitude_equality_predicates_witness :
  4 <= 125 <= 125
  /\ BigUint.arbitrary_num 125 (BigUint.ptr (BigUint.num_to_biguint [3; -1]))
  /\ BigUint.arbitrary_num 125 (BigUint.ptr (BigUint.num_to_biguint [-1]))
  /\ (BigUint.test__is_eq_success_function
        (BigUint.num_to_biguint [3; -1]) (BigUint.num_to_biguint [-1]) 0
      = Returned tt
      <-> 0 = if BigUint.biguint_to_int 125 (BigUint.num_to_biguint [3; -1])
                 =? BigUint.biguint_to_int 125 (BigUint.num_to_biguint [-1])
              then 1 else 0).
Proof.
  assert (Hw : 4 <= 125 <= 125) by lia.
  assert (Ha : BigUint.arbitrary_num 125
                 (BigUint.ptr (BigUint.num_to_biguint [3; -1]))).
  { exists [3]. split; [|split; reflexivity].
    constructor; [vm_compute; split; discriminate|constructor]. }
  assert (Hb : BigUint.arbitrary_num 125
                 (BigUint.ptr (BigUint.num_to_biguint [-1]))).
  { exists []. split; [constructor|split; reflexivity]. }
  split; [exact Hw|]. split; [exact Ha|]. split; [exact Hb|].
  apply (BigUintFacts.magnitude_equality_predicates 125 Hw
           (BigUint.num_to_biguint [3; -1]) (BigUint.num_to_biguint [-1]) 0
           Ha Hb).
Defined.

Ltac canonical_digits l :=
  exists l; split; [|split; reflexivity];
  repeat (constructor; [vm_compute; split; discriminate|]); constructor.

Lemma magnitude_arithmetic_predicates_witness :
  4 <= 125 <= 125
  /\ BigUint.arbitrary_num 125 (BigUint.ptr (BigUint.num_to_biguint [3; -1]))
  /\ BigUint.arbitrary_num 125 (BigUint.ptr (BigUint.num_to_biguint [5; -1]))
  /\ BigUint.arbitrary_num 125 (BigUint.ptr (BigUint.num_to_biguint [8; -1]))
  /\ 0 <= 2
  /\ (BigUint.test__add_success_function 125
        (BigUint.num_to_biguint [3; -1]) (BigUint.num_to_biguint [5; -1])
        (BigUint.num_to_biguint [8; -1]) = Returned tt
      <-> BigUint.num_to_biguint [8; -1]
          = BigUint.int_to_biguint 125
              (BigUint.biguint_to_int 125 (BigUint.num_to_biguint [3; -1])
               + BigUint.biguint_to_int 125 (BigUint.num_to_biguint [5; -1]))).
Proof.
  assert (Hw : 4 <= 125 <= 125) by lia.
  assert (Ha : BigUint.arbitrary_num 125
                 (BigUint.ptr (BigUint.num_to_biguint [3; -1])))
    by canonical_digits [3].
  assert (Hb : BigUint.arbitrary_num 125
                 (BigUint.ptr (BigUint.num_to_biguint [5; -1])))
    by canonical_digits [5].
  assert (Hr : BigUint.arbitrary_num 125
                 (BigUint.ptr (BigUint.num_to_biguint [8; -1])))
    by canonical_digits [8].
  assert (Hd : 0 <= 2) by lia.
  split; [exact Hw|]. split; [exact Ha|]. split; [exact Hb|].
  split; [exact Hr|]. split; [exact Hd|].
  apply (BigUintFacts.magnitude_arithmetic_predicates 125 Hw
           (BigUint.num_to_biguint [3; -1]) (BigUint.num_to_biguint [5; -1])
           (BigUint.num_to_biguint [8; -1]) 1 2 Ha Hb Hr Hd).
Defined.

Lemma bigint_arithmetic_predicates_witness :
  4 <= 125 <= 125
  /\ BigUint.arbitrary_bigint 125 (-1, [3; -1])
  /\ BigUint.arbitrary_bigint 125 (1, [3; -1])
  /\ BigUint.arbitrary_bigint 125 (-1, [-1])
  /\ (BigUint.bigint__add_success_function 125
        (-1, [3; -1]) (1, [3; -1]) (-1, [-1]) = Returned tt
      <-> (-1, [-1])
          = BigUint.int_to_bigint 125
              (BigUint.bigint_to_int 125 (-1, [3; -1])
               + BigUint.bigint_to_int 125 (1, [3; -1]))
          \/ (BigUint.bigint_to_int 125 (-1, [3; -1])
               + BigUint.bigint_to_int 125 (1, [3; -1]) = 0
              /\ (-1, [-1]) = (-1, BigUint.add_eon []))).
Proof.
  assert (Hw : 4 <= 125 <= 125) by lia.
  assert (Hx : BigUint.arbitrary_bigint 125 (-1, [3; -1]))
    by (split; [left; reflexivity|canonical_digits [3]]).
  assert (Hy : BigUint.arbitrary_bigint 125 (1, [3; -1]))
    by (split; [right; reflexivity|canonical_digits [3]]).
  assert (Hr : BigUint.arbitrary_bigint 125 (-1, [-1]))
    by (split; [left; reflexivity|canonical_digits (@nil Z)]).
  split; [exact Hw|]. split; [exact Hx|]. split; [exact Hy|].
  split; [exact Hr|].
  apply (BigUintFacts.bigint_arithmetic_predicates 125 Hw
           (-1, [3; -1]) (1, [3; -1]) (-1, [-1]) 1 Hx Hy Hr).
Defined.

Lemma length_bound_is_value_bound_witness :
  4 <= 125 <= 125
  /\ BigUint.arbitrary_num 125 [3; 7; -1]
  /\ 0 <= 5 < BigUint.SHIFT 125 ^ Z.of_nat 2
  /\ BigUint.arbitrary_biguint_of_len_at_most 125 2 (BigUint.int_to_num 125 5).
Proof.
  assert (Hw : 4 <= 125 <= 125) by lia.
  assert (Ha : BigUint.arbitrary_num 125 [3; 7; -1])
    by canonical_digits [3; 7].
  assert (Hv : 0 <= 5 < BigUint.SHIFT 125 ^ Z.of_nat 2)
    by (vm_compute; split; [discriminate|reflexivity]).
  split; [exact Hw|]. split; [exact Ha|]. split; [exact Hv|].
  apply (BigUintFacts.length_bound_is_value_bound 125 Hw 2 [3; 7; -1] 5 Ha Hv).
Defined.

Lemma num_check_test_verdict_witness :
  (forall results,
      success_function
        (stub_test (FixedWidth.test__num_check_success_function 16 5)
                   (FixedWidth.test__num_check_failure_function 16 5))
        ([5] ++ results)
      = FixedWidth.test__num_check_success_function 16 5)
  /\ failure_function
       (stub_test (FixedWidth.test__num_check_success_function 16 5)
                  (FixedWidth.test__num_check_failure_function 16 5)) [5]
     = FixedWidth.test__num_check_failure_function 16 5
  /\ (snd (CairoTest_run _ stub_runner failing_program
             (stub_test (FixedWidth.test__num_check_success_function 16 5)
                        (FixedWidth.test__num_check_failure_function 16 5))
             [5] (Some [])) = Returned tt
      \/ snd (CairoTest_run _ stub_runner failing_program
                (stub_test (FixedWidth.test__num_check_success_function 16 5)
                           (FixedWidth.test__num_check_failure_function 16 5))
                [5] (Some [])) = Raised AssertionError).
Proof.
  split; [intros results; reflexivity|]. split; [reflexivity|].
  apply (num_check_test_verdict _ stub_runner 16 failing_program
           (stub_test (FixedWidth.test__num_check_success_function 16 5)
                      (FixedWidth.test__num_check_failure_function 16 5))
           [5] 5 []);
    [intros results; reflexivity|reflexivity].
Defined.

Lemma felt_abs_expected_result_witness :
  0 <= 5
  /\ (FixedWidth.test__felt_abs_success_function (-5) 5
        (FixedWidth.num_to_felt (-1)) = Returned tt
      <-> 5 = Z.abs (-5)
          /\ (-5 <> 0 ->
              FixedWidth.felt_to_num (FixedWidth.num_to_felt (-1))
              = Z.sgn (-5))).
Proof.
  split; [lia|].
  destruct (FixedWidthFacts.felt_abs_expected_result (-5) 5
              (FixedWidth.num_to_felt (-1)) ltac:(lia)) as (_ & Hiff & _).
  apply Hiff. right. reflexivity.
Defined.
